(** * Inventorygarten backend: the row mapper, the filter engine and the
      two list endpoints of [src/main.ts]

    [src/main.ts] holds two revisions of the server.  The development follows
    the later one (the one with the [Filters] class and the [tag] query
    parameter).

    Conventions of the embedding:
    - a JavaScript string is a [string]; the only character the program looks
      at is the comma, so the byte view and the UTF-16 view split alike;
    - the numeric columns of a row ([id], [Tag], [CreatedAt], ...) are
      integers, [Z];
    - [undefined] and [null] are [None];
    - [new Map(entries)] is a [gmap] built by inserting the entries from left
      to right, [new Set(values)] is a [gset];
    - [Date] follows ECMA-262 on integer time values; a timestamp of a row
      is a whole number of seconds, and [timestamp * 1000] is exact as long
      as it stays below [2 ^ 53];
    - a promise is modelled by the way it settles, [Promise.t]. *)

From Stdlib Require Import ZArith Lia Ascii.
From stdpp Require Import gmap strings list.

Local Open Scope Z_scope.

(** ** The fragment of the JavaScript runtime the program uses *)

Module JS.

(** Truthiness of a string: only the empty string is falsy. *)
Definition truthy (s : string) : bool :=
  match s with
  | EmptyString => false
  | String _ _ => true
  end.

(** [s.split(sep)] for a one-character separator: the substrings between
    the occurrences of [sep], empty ones included. *)
Fixpoint split (sep : ascii) (s : string) : list string :=
  match s with
  | EmptyString => [EmptyString]
  | String c r =>
      if Ascii.eqb c sep then EmptyString :: split sep r
      else match split sep r with
           | [] => [String c EmptyString]
           | h :: t => String c h :: t
           end
  end.

(** [tokens.join(sep)], the inverse view of [split]. *)
Fixpoint join (sep : ascii) (tokens : list string) : string :=
  match tokens with
  | [] => EmptyString
  | [h] => h
  | h :: t => h +:+ String sep (join sep t)
  end.

(** Number of occurrences of a character. *)
Fixpoint occurrences (c : ascii) (s : string) : nat :=
  match s with
  | EmptyString => 0%nat
  | String d r => ((if Ascii.eqb d c then 1 else 0) + occurrences c r)%nat
  end.

(** [new Map(entries)]: a later entry with the same key replaces an
    earlier one. *)
Definition Map_new {V : Type} (entries : list (Z * V)) : gmap Z V :=
  foldl (λ m kv, <[kv.1 := kv.2]> m) ∅ entries.

(** [new Set(values)]. *)
Definition Set_new (values : list string) : gset string :=
  list_to_set values.

(** [set.has(value)]. *)
Definition Set_has (set : gset string) (value : string) : bool :=
  bool_decide (value ∈ set).

End JS.

(** ** Promises, by the way they settle *)

Module Promise.

(** The reason of a rejection. *)
Definition Error : Type := string.

Inductive t (A : Type) : Type :=
| Fulfilled (a : A)
| Rejected (e : Error).
Arguments Fulfilled {A} a.
Arguments Rejected {A} e.

(** [await p; k]: a rejection skips the continuation. *)
Definition bind {A B : Type} (p : t A) (k : A → t B) : t B :=
  match p with
  | Fulfilled a => k a
  | Rejected e => Rejected e
  end.

(** Which of the two promises given to [Promise.all] settles first. *)
Inductive order : Type := LeftFirst | RightFirst.

(** [Promise.all([p, q])]: fulfilled with both values when both are
    fulfilled, rejected with the reason of the first promise that
    rejects. *)
Definition all {A B : Type} (o : order) (p : t A) (q : t B) : t (A * B) :=
  match p, q with
  | Fulfilled a, Fulfilled b => Fulfilled (a, b)
  | Rejected e, Fulfilled _ => Rejected e
  | Fulfilled _, Rejected e => Rejected e
  | Rejected e1, Rejected e2 =>
      match o with
      | LeftFirst => Rejected e1
      | RightFirst => Rejected e2
      end
  end.

Definition is_rejected {A : Type} (p : t A) : Prop :=
  ∃ e, p = Rejected e.

End Promise.

(** [x ← p; k] reads [const x = await p; k]. *)
Global Instance promise_bind : MBind Promise.t := λ A B k p, Promise.bind p k.
Global Instance promise_ret : MRet Promise.t := λ A a, Promise.Fulfilled a.

(** ** [Date]: time values are milliseconds since the epoch (ECMA-262, 21.4.1) *)

Module Date.

Definition msPerSecond : Z := 1000.
Definition msPerMinute : Z := 60000.
Definition msPerHour : Z := 3600000.
Definition msPerDay : Z := 86400000.

Definition Day (t : Z) : Z := t / msPerDay.
Definition TimeWithinDay (t : Z) : Z := t mod msPerDay.

Definition DaysInYear (y : Z) : Z :=
  if negb (y mod 4 =? 0) then 365
  else if negb (y mod 100 =? 0) then 366
  else if negb (y mod 400 =? 0) then 365
  else 366.

Definition DayFromYear (y : Z) : Z :=
  365 * (y - 1970) + (y - 1969) / 4 - (y - 1901) / 100 + (y - 1601) / 400.

Definition TimeFromYear (y : Z) : Z := msPerDay * DayFromYear y.

(** The largest [y] with [TimeFromYear y <= t]: an estimate from the mean
    length of a year, off by at most one, then adjusted. *)
Definition YearFromTime (t : Z) : Z :=
  let d := Day t in
  let y := 1970 + (400 * d) / 146097 in
  if d <? DayFromYear y then y - 1
  else if DayFromYear (y + 1) <=? d then y + 1
  else y.

Definition InLeapYear (t : Z) : Z :=
  if DaysInYear (YearFromTime t) =? 365 then 0 else 1.

Definition DayWithinYear (t : Z) : Z := Day t - DayFromYear (YearFromTime t).

(** Months are numbered from 0 (January) to 11 (December). *)
Definition MonthFromTime (t : Z) : Z :=
  let d := DayWithinYear t in
  let leap := InLeapYear t in
  if d <? 31 then 0
  else if d <? 59 + leap then 1
  else if d <? 90 + leap then 2
  else if d <? 120 + leap then 3
  else if d <? 151 + leap then 4
  else if d <? 181 + leap then 5
  else if d <? 212 + leap then 6
  else if d <? 243 + leap then 7
  else if d <? 273 + leap then 8
  else if d <? 304 + leap then 9
  else if d <? 334 + leap then 10
  else 11.

(** Day of the month, from 1. *)
Definition DateFromTime (t : Z) : Z :=
  let d := DayWithinYear t in
  let leap := InLeapYear t in
  match MonthFromTime t with
  | 0 => d + 1
  | 1 => d - 30
  | 2 => d - 58 - leap
  | 3 => d - 89 - leap
  | 4 => d - 119 - leap
  | 5 => d - 150 - leap
  | 6 => d - 180 - leap
  | 7 => d - 211 - leap
  | 8 => d - 242 - leap
  | 9 => d - 272 - leap
  | 10 => d - 303 - leap
  | _ => d - 333 - leap
  end.

Definition HourFromTime (t : Z) : Z := (t / msPerHour) mod 24.
Definition MinFromTime (t : Z) : Z := (t / msPerMinute) mod 60.
Definition SecFromTime (t : Z) : Z := (t / msPerSecond) mod 60.
Definition msFromTime (t : Z) : Z := t mod msPerSecond.

(** [TimeClip]: a time value further than 8.64e15 ms from the epoch is
    not a date. *)
Definition valid (t : Z) : bool := Z.abs t <=? 8640000000000000.

(** The decimal digit [d], for [0 <= d < 10]. *)
Definition digit (d : Z) : ascii := ascii_of_N (48 + Z.to_N d).

Definition pad2 (n : Z) (rest : string) : string :=
  String (digit (n / 10 mod 10)) (String (digit (n mod 10)) rest).
Definition pad3 (n : Z) (rest : string) : string :=
  String (digit (n / 100 mod 10)) (pad2 n rest).
Definition pad4 (n : Z) (rest : string) : string :=
  String (digit (n / 1000 mod 10)) (pad3 n rest).
Definition pad6 (n : Z) (rest : string) : string :=
  String (digit (n / 100000 mod 10))
    (String (digit (n / 10000 mod 10)) (pad4 n rest)).

(** Years 0 to 9999 take four digits, the others a sign and six. *)
Definition year_string (y : Z) (rest : string) : string :=
  if (0 <=? y) && (y <=? 9999) then pad4 y rest
  else if y <? 0 then String "-" (pad6 (- y) rest)
  else String "+" (pad6 y rest).

(** [Date.prototype.toISOString] of a valid time value. *)
Definition toISOString (t : Z) : string :=
  year_string (YearFromTime t) $ String "-" $
  pad2 (MonthFromTime t + 1) $ String "-" $
  pad2 (DateFromTime t) $ String "T" $
  pad2 (HourFromTime t) $ String ":" $
  pad2 (MinFromTime t) $ String ":" $
  pad2 (SecFromTime t) $ String "." $
  pad3 (msFromTime t) "Z".

(** [new Date(t).toJSON()]: [null] for an invalid date. *)
Definition toJSON (t : Z) : option string :=
  if valid t then Some (toISOString t) else None.

End Date.

(** Utility to convert timestamp to ISO format. *)
Definition toISOTimestamp (timestamp : Z) : option string :=
  Date.toJSON (timestamp * 1000).

(** ** The reading of an ISO-8601 timestamp

    The specification's side of the conversion: what instant a string
    [YYYY-MM-DDTHH:mm:ss.sssZ] names, in the proleptic Gregorian calendar
    and in UTC. *)

Module ISO8601.

Definition leap_year (Y : Z) : bool :=
  (Y mod 4 =? 0) && (negb (Y mod 100 =? 0) || (Y mod 400 =? 0)).

Definition days_in_month (Y M : Z) : Z :=
  match M with
  | 2 => if leap_year Y then 29 else 28
  | 4 | 6 | 9 | 11 => 30
  | _ => 31
  end.

(** Days from 1970-01-01 to the day [D] of the month [M] of the year [Y],
    counting the years from March in cycles of 400 years. *)
Definition days_from_civil (Y M D : Z) : Z :=
  let y := if M <=? 2 then Y - 1 else Y in
  let era := y / 400 in
  let yoe := y - era * 400 in
  let mp := (M + 9) mod 12 in
  let doy := (153 * mp + 2) / 5 + D - 1 in
  let doe := yoe * 365 + yoe / 4 - yoe / 100 + doy in
  era * 146097 + doe - 719468.

(** Milliseconds from the epoch to the given date and time of day. *)
Definition instant (Y M D h m s ms : Z) : Z :=
  (((days_from_civil Y M D * 24 + h) * 60 + m) * 60 + s) * 1000 + ms.

Definition digit_value (c : ascii) : option Z :=
  let n := Z.of_N (N_of_ascii c) in
  if (48 <=? n) && (n <=? 57) then Some (n - 48) else None.

(** [w] decimal digits, most significant first. *)
Fixpoint number (w : nat) (acc : Z) (s : string) : option (Z * string) :=
  match w with
  | O => Some (acc, s)
  | S w' =>
      match s with
      | String c r => d ← digit_value c; number w' (10 * acc + d) r
      | EmptyString => None
      end
  end.

Definition expect (c : ascii) (s : string) : option string :=
  match s with
  | String d r => if Ascii.eqb c d then Some r else None
  | EmptyString => None
  end.

Definition in_range (Y M D h m s : Z) : bool :=
  (1 <=? M) && (M <=? 12) && (1 <=? D) && (D <=? days_in_month Y M)
  && (h <? 24) && (m <? 60) && (s <? 60).

(** The instant named by [YYYY-MM-DDTHH:mm:ss.sssZ]; [None] for any other
    string and for a date or a time of day that does not exist. *)
Definition instant_of (str : string) : option Z :=
  '(Y, r) ← number 4 0 str; r ← expect "-" r;
  '(M, r) ← number 2 0 r; r ← expect "-" r;
  '(D, r) ← number 2 0 r; r ← expect "T" r;
  '(h, r) ← number 2 0 r; r ← expect ":" r;
  '(m, r) ← number 2 0 r; r ← expect ":" r;
  '(s, r) ← number 2 0 r; r ← expect "." r;
  '(ms, r) ← number 3 0 r; r ← expect "Z" r;
  match r with
  | EmptyString =>
      if in_range Y M D h m s then Some (instant Y M D h m s ms) else None
  | String _ _ => None
  end.

End ISO8601.

(** ** Data model *)

(** A row of the remote [Items] table. *)
Module GristItem.
Record t : Type := {
  id : Z;
  manualSort : Z;
  ID2 : string;
  Name : string;
  Description : string;
  Tag : Z;
  CreatedAt : Z;
  UpdatedAt : Z;
}.
End GristItem.

(** A row of the remote [Tags] table. *)
Module GristTag.
Record t : Type := {
  id : Z;
  manualSort : Z;
  ID2 : string;
  CreatedAt : Z;
  UpdatedAt : Z;
}.
End GristTag.

Inductive TagType : Type := TagType_Item | TagType_Container.

Definition TagType_value (ty : TagType) : string :=
  match ty with
  | TagType_Item => "ITEM"
  | TagType_Container => "CONTAINER"
  end.

Inductive PossessionType : Type :=
| PossessionType_Unspecified
| PossessionType_User
| PossessionType_Container.

Module Possession.
Record t : Type := { type : PossessionType; id : string }.
End Possession.

(** The public item.  [imageUrl] and [tags] are optional fields; the two
    timestamps hold what [toJSON] gives. *)
Module Item.
Record t : Type := {
  id : string;
  name : string;
  description : string;
  notes : string;
  imageUrl : option string;
  type : TagType;
  tags : option (list string);
  possession : Possession.t;
  createdAt : option string;
  updatedAt : option string;
}.
End Item.

Module Link.
Record t : Type := { id : string; type : TagType }.
End Link.

(** The public tag; [link] is [null] or a link. *)
Module Tag.
Record t : Type := {
  id : string;
  link : option Link.t;
  createdAt : option string;
  updatedAt : option string;
}.
End Tag.

(** ** The filter engine *)

Module Filters.

(** What a getter returns: [string | string[]]. *)
Inductive getter_result : Type :=
| One (value : string)
| Many (values : list string).

Section Filters.
Context {T : Type}.

(** The object is its [criteria] array. *)
Definition t : Type := list (T → bool).

Definition new : t := [].

(** [this.criteria.push(criteria)]. *)
Definition addCriteria (criteria : T → bool) (this : t) : t :=
  this ++ [criteria].

(** [match]: every criterion holds. *)
Definition match_ (this : t) (item : T) : bool :=
  forallb (λ criteria, criteria item) this.

(** The static [in]. *)
Definition in_ (values : list string) (getter : T → getter_result)
  : T → bool :=
  let set := JS.Set_new values in
  λ item,
    let result := getter item in
    let values :=
      match result with
      | Many values => values
      | One value => [value]
      end in
    existsb (λ value, JS.Set_has set value) values.
End Filters.
Arguments t : clear implicits.

End Filters.

(** ** The two endpoints *)

Module ItemsQuery.
Record t : Type := { id : option string; tag : option string }.
End ItemsQuery.

Module TagsQuery.
Record t : Type := { id : option string }.
End TagsQuery.

(** The criteria [GET /items] builds from its query. *)
Definition items_filters (query : ItemsQuery.t) : Filters.t Item.t :=
  let filters := Filters.new in
  let filters :=
    match ItemsQuery.id query with
    | Some id =>
        if JS.truthy id then
          let queryIds := JS.split "," id in
          Filters.addCriteria
            (Filters.in_ queryIds (λ item, Filters.One (Item.id item))) filters
        else filters
    | None => filters
    end in
  match ItemsQuery.tag query with
  | Some tag =>
      if JS.truthy tag then
        let queryTags := JS.split "," tag in
        Filters.addCriteria
          (Filters.in_ queryTags
             (λ item, Filters.Many (default [] (Item.tags item)))) filters
      else filters
  | None => filters
  end.

(** The callback of [items.map] in [GET /items]. *)
Definition toItem (tagMap : gmap Z GristTag.t) (item : GristItem.t) : Item.t :=
  let tag := tagMap !! GristItem.Tag item in
  let itemTags :=
    match tag with
    | Some tag => [GristTag.ID2 tag]
    | None => []
    end in
  {| Item.id := GristItem.ID2 item;
     Item.name := GristItem.Name item;
     Item.description := GristItem.Description item;
     Item.notes := "";
     Item.imageUrl := None;
     Item.type := TagType_Item;
     Item.tags := Some itemTags;
     Item.possession :=
       {| Possession.type := PossessionType_Unspecified; Possession.id := "" |};
     Item.createdAt := toISOTimestamp (GristItem.CreatedAt item);
     Item.updatedAt := toISOTimestamp (GristItem.UpdatedAt item) |}.

(** The map [tagMap] of [GET /items]. *)
Definition tagMap_of (tags : list GristTag.t) : gmap Z GristTag.t :=
  JS.Map_new (map (λ tag, (GristTag.id tag, tag)) tags).

(** The body of [GET /items] once both tables are there. *)
Definition items_response (query : ItemsQuery.t)
    (items : list GristItem.t) (tags : list GristTag.t) : list Item.t :=
  let tagMap := tagMap_of tags in
  let filters := items_filters query in
  List.filter (λ item, Filters.match_ filters item) (map (toItem tagMap) items).

(** [GET /items]: [fetchItems()] and [fetchTags()] are given by the way they
    settle, [first] says which of them settles first. *)
Definition GET_items (query : ItemsQuery.t) (first : Promise.order)
    (fetchItems : Promise.t (list GristItem.t))
    (fetchTags : Promise.t (list GristTag.t)) : Promise.t (list Item.t) :=
  '(items, tags) ← Promise.all first fetchItems fetchTags;
  mret (items_response query items tags).

(** The criteria [GET /tags] builds from its query. *)
Definition tags_filters (query : TagsQuery.t) : Filters.t Tag.t :=
  let filters := Filters.new in
  match TagsQuery.id query with
  | Some id =>
      if JS.truthy id then
        let queryIds := JS.split "," id in
        Filters.addCriteria
          (Filters.in_ queryIds (λ tag, Filters.One (Tag.id tag))) filters
      else filters
  | None => filters
  end.

(** The callback of [tags.map] in [GET /tags]; [itemId] is a string or
    [undefined], and the empty string is falsy. *)
Definition toTag (itemByTag : gmap Z string) (tag : GristTag.t) : Tag.t :=
  let itemId := itemByTag !! GristTag.id tag in
  {| Tag.id := GristTag.ID2 tag;
     Tag.link :=
       match itemId with
       | Some itemId =>
           if JS.truthy itemId
           then Some {| Link.id := itemId; Link.type := TagType_Item |}
           else None
       | None => None
       end;
     Tag.createdAt := toISOTimestamp (GristTag.CreatedAt tag);
     Tag.updatedAt := toISOTimestamp (GristTag.UpdatedAt tag) |}.

(** The map [itemByTag] of [GET /tags]. *)
Definition itemByTag_of (items : list GristItem.t) : gmap Z string :=
  JS.Map_new (map (λ item, (GristItem.Tag item, GristItem.ID2 item)) items).

(** The body of [GET /tags] once both tables are there. *)
Definition tags_response (query : TagsQuery.t)
    (items : list GristItem.t) (tags : list GristTag.t) : list Tag.t :=
  let itemByTag := itemByTag_of items in
  let filters := tags_filters query in
  List.filter (λ tag, Filters.match_ filters tag) (map (toTag itemByTag) tags).

Definition GET_tags (query : TagsQuery.t) (first : Promise.order)
    (fetchItems : Promise.t (list GristItem.t))
    (fetchTags : Promise.t (list GristTag.t)) : Promise.t (list Tag.t) :=
  '(items, tags) ← Promise.all first fetchItems fetchTags;
  mret (tags_response query items tags).

(** The rows of the scenario of the specification. *)
Definition row_A : GristItem.t :=
  {| GristItem.id := 1; GristItem.manualSort := 1; GristItem.ID2 := "A";
     GristItem.Name := "Item A"; GristItem.Description := "";
     GristItem.Tag := 10; GristItem.CreatedAt := 1000;
     GristItem.UpdatedAt := 1000 |}.

Definition row_T1 : GristTag.t :=
  {| GristTag.id := 10; GristTag.manualSort := 1; GristTag.ID2 := "T1";
     GristTag.CreatedAt := 900; GristTag.UpdatedAt := 900 |}.

(** ** Rows and criteria used in the statements *)

(** A second item row, without tag, and a row whose id holds a comma. *)
Definition row_B : GristItem.t :=
  {| GristItem.id := 2; GristItem.manualSort := 2; GristItem.ID2 := "B";
     GristItem.Name := "Item B"; GristItem.Description := "";
     GristItem.Tag := 0; GristItem.CreatedAt := 2000;
     GristItem.UpdatedAt := 2000 |}.

Definition row_comma : GristItem.t :=
  {| GristItem.id := 3; GristItem.manualSort := 3; GristItem.ID2 := "a,b";
     GristItem.Name := "Item a,b"; GristItem.Description := "";
     GristItem.Tag := 0; GristItem.CreatedAt := 3000;
     GristItem.UpdatedAt := 3000 |}.

(** The [tag] criterion, on the tag list of an item. *)
Definition tag_criterion (qt : string) (item : Item.t) : bool :=
  existsb (λ tg, bool_decide (tg ∈ JS.split "," qt))
    (default [] (Item.tags item)).

(** The [id] criterion, when the [id] query is present and non-empty. *)
Definition id_criterion (qid : option string) (item : Item.t) : bool :=
  match qid with
  | Some q =>
      if JS.truthy q then bool_decide (Item.id item ∈ JS.split "," q)
      else true
  | None => true
  end.

(** What [toTag] makes of a looked-up item id. *)
Definition link_of (itemId : option string) : option Link.t :=
  match itemId with
  | Some itemId =>
      if JS.truthy itemId
      then Some {| Link.id := itemId; Link.type := TagType_Item |}
      else None
  | None => None
  end.

(** An item row that refers to the tag of [row_T1] and has no id yet. *)
Definition row_blank : GristItem.t :=
  {| GristItem.id := 4; GristItem.manualSort := 4; GristItem.ID2 := "";
     GristItem.Name := "Unnamed"; GristItem.Description := "";
     GristItem.Tag := 10; GristItem.CreatedAt := 4000;
     GristItem.UpdatedAt := 4000 |}.

(** A second item row that refers to the tag of [row_T1]. *)
Definition row_A' : GristItem.t :=
  {| GristItem.id := 5; GristItem.manualSort := 5; GristItem.ID2 := "A2";
     GristItem.Name := "Item A2"; GristItem.Description := "";
     GristItem.Tag := 10; GristItem.CreatedAt := 5000;
     GristItem.UpdatedAt := 5000 |}.

(** A tag row with the empty string as id. *)
Definition row_T_blank : GristTag.t :=
  {| GristTag.id := 11; GristTag.manualSort := 2; GristTag.ID2 := "";
     GristTag.CreatedAt := 950; GristTag.UpdatedAt := 950 |}.

(** The [tag] criterion, when the [tag] query is present and non-empty. *)
Definition tag_criterion_opt (qtag : option string) (item : Item.t) : bool :=
  match qtag with
  | Some q => if JS.truthy q then tag_criterion q item else true
  | None => true
  end.

(** The [id] criterion of [GET /tags]. *)
Definition tag_id_criterion (qid : option string) (tag : Tag.t) : bool :=
  match qid with
  | Some q =>
      if JS.truthy q then bool_decide (Tag.id tag ∈ JS.split "," q)
      else true
  | None => true
  end.

(** ** The earlier revision of the two endpoints

    The first revision in [src/main.ts] has the single query parameter [id],
    compared with [===], and its [GET /items] logs every item row to the
    console.  The rows are mapped as in the later revision. *)

Module Rev1.

Module Query.
Record t : Type := { id : option string }.
End Query.

(** [!query.id]. *)
Definition not_truthy (o : option string) : bool :=
  match o with
  | Some s => negb (JS.truthy s)
  | None => true
  end.

(** [value === query.id], for a string [value]. *)
Definition strict_equal (value : string) (o : option string) : bool :=
  match o with
  | Some s => bool_decide (value = s)
  | None => false
  end.

(** [.filter((entity) => !query.id || entity.id === query.id)]. *)
Definition keep (query : Query.t) (id : string) : bool :=
  not_truthy (Query.id query) || strict_equal id (Query.id query).

(** [items.map] with its [console.log(item)]: the console, as the list of
    the rows logged, and the mapped items. *)
Definition map_logged (tagMap : gmap Z GristTag.t) (items : list GristItem.t)
  : list GristItem.t * list Item.t :=
  foldl (λ '(console, mapped) item,
           (console ++ [item], mapped ++ [toItem tagMap item]))
    ([], []) items.

(** [GET /items]: the console output and the response. *)
Definition GET_items (query : Query.t) (first : Promise.order)
    (fetchItems : Promise.t (list GristItem.t))
    (fetchTags : Promise.t (list GristTag.t))
  : Promise.t (list GristItem.t * list Item.t) :=
  '(items, tags) ← Promise.all first fetchItems fetchTags;
  let tagMap := tagMap_of tags in
  let '(console, mapped) := map_logged tagMap items in
  mret (console, List.filter (λ item, keep query (Item.id item)) mapped).

Definition GET_tags (query : Query.t) (first : Promise.order)
    (fetchItems : Promise.t (list GristItem.t))
    (fetchTags : Promise.t (list GristTag.t)) : Promise.t (list Tag.t) :=
  '(items, tags) ← Promise.all first fetchItems fetchTags;
  let itemByTag := itemByTag_of items in
  mret (List.filter (λ tag, keep query (Tag.id tag))
          (map (toTag itemByTag) tags)).

End Rev1.

(** A second tag row with the numeric id of [row_T1], without [ID2]. *)
Definition row_T1_again : GristTag.t :=
  {| GristTag.id := 10; GristTag.manualSort := 3; GristTag.ID2 := "";
     GristTag.CreatedAt := 0; GristTag.UpdatedAt := 0 |}.

(** * Properties *)

(** ** [split] *)

Section split_facts.
Variable sep : ascii.

Lemma split_nonempty s : JS.split sep s ≠ [].
Proof.
  destruct s as [|c r]; simpl; [done|].
  destruct (Ascii.eqb c sep); [done|].
  by destruct (JS.split sep r).
Qed.

Lemma join_split s : JS.join sep (JS.split sep s) = s.
Proof.
  induction s as [|c r IH]; simpl; [done|].
  destruct (Ascii.eqb_spec c sep) as [->|Hne].
  - pose proof (split_nonempty r) as Hr.
    destruct (JS.split sep r) as [|h t]; [done|].
    change ("" +:+ String sep (JS.join sep (h :: t)) = String sep r).
    by rewrite IH.
  - pose proof (split_nonempty r) as Hr.
    destruct (JS.split sep r) as [|h t]; [done|].
    destruct t as [|h' t].
    + simpl in *. by rewrite IH.
    + change (String c (h +:+ String sep (JS.join sep (h' :: t))) = String c r).
      f_equal. exact IH.
Qed.

Lemma length_split s :
  length (JS.split sep s) = S (JS.occurrences sep s).
Proof.
  induction s as [|c r IH]; simpl; [done|].
  destruct (Ascii.eqb c sep); simpl.
  - by rewrite IH.
  - pose proof (split_nonempty r) as Hr.
    destruct (JS.split sep r) as [|h t]; [done|]. simpl in *. done.
Qed.

Lemma split_token_no_sep s tok :
  tok ∈ JS.split sep s → JS.occurrences sep tok = 0%nat.
Proof.
  revert tok. induction s as [|c r IH]; simpl; intros tok Htok.
  - apply list_elem_of_singleton in Htok as ->. done.
  - destruct (Ascii.eqb c sep) eqn:Hc.
    + apply elem_of_cons in Htok as [->|Htok]; [done|]. by apply IH.
    + pose proof (split_nonempty r) as Hr.
      destruct (JS.split sep r) as [|h t]; [done|].
      apply elem_of_cons in Htok as [->|Htok].
      * simpl. rewrite Hc. simpl. apply IH. left.
      * apply IH. by right.
Qed.

(** A string without separator is its own single token. *)
Lemma split_no_sep s :
  JS.occurrences sep s = 0%nat → JS.split sep s = [s].
Proof.
  induction s as [|c r IH]; simpl; [done|].
  destruct (Ascii.eqb c sep); [done|].
  intros Hr. by rewrite IH.
Qed.
End split_facts.

Lemma truthy_nonempty s : JS.truthy s = true ↔ s ≠ "".
Proof. by destruct s. Qed.

Lemma truthy_empty s : JS.truthy s = false ↔ s = "".
Proof. by destruct s. Qed.

(** ** [Map] and [Set] *)

Lemma Map_new_snoc {V} (entries : list (Z * V)) k v :
  JS.Map_new (entries ++ [(k, v)]) = <[k := v]> (JS.Map_new entries).
Proof. unfold JS.Map_new. by rewrite foldl_app. Qed.

(** No entry with the key: [get] gives [undefined]. *)
Lemma Map_new_lookup_None {V} (entries : list (Z * V)) k :
  (∀ kv, kv ∈ entries → kv.1 ≠ k) → JS.Map_new entries !! k = None.
Proof.
  induction entries as [|[k' v'] l IH] using rev_ind; intros Hk.
  - apply lookup_empty.
  - rewrite Map_new_snoc, lookup_insert_ne.
    + apply IH. intros kv Hkv. apply Hk, elem_of_app. by left.
    + apply (Hk (k', v')), elem_of_app. right. by left.
Qed.

(** The last entry with the key is the one [get] gives. *)
Lemma Map_new_lookup_last {V} (before after : list (Z * V)) k v :
  (∀ kv, kv ∈ after → kv.1 ≠ k) →
  JS.Map_new (before ++ (k, v) :: after) !! k = Some v.
Proof.
  induction after as [|[k' v'] l IH] using rev_ind; intros Hk.
  - rewrite Map_new_snoc. apply lookup_insert_eq.
  - replace (before ++ (k, v) :: l ++ [(k', v')])
      with ((before ++ (k, v) :: l) ++ [(k', v')])
      by (by rewrite <- app_assoc).
    rewrite Map_new_snoc, lookup_insert_ne.
    + apply IH. intros kv Hkv. apply Hk, elem_of_app. by left.
    + apply (Hk (k', v')), elem_of_app. right. by left.
Qed.

Lemma Set_has_spec values value :
  JS.Set_has (JS.Set_new values) value = true ↔ value ∈ values.
Proof.
  unfold JS.Set_has, JS.Set_new.
  by rewrite bool_decide_eq_true, elem_of_list_to_set.
Qed.

(** ** The filter engine *)

Lemma in_spec {T} values (getter : T → Filters.getter_result) item :
  Filters.in_ values getter item = true ↔
  ∃ value,
    value ∈ match getter item with
            | Filters.One v => [v]
            | Filters.Many l => l
            end
    ∧ value ∈ values.
Proof.
  unfold Filters.in_. rewrite existsb_exists.
  split; intros (v & Hv & Hin); exists v.
  - by rewrite list_elem_of_In, <- Set_has_spec.
  - by rewrite <- list_elem_of_In, Set_has_spec.
Qed.

Lemma in_One {T} values (get : T → string) item :
  Filters.in_ values (λ x, Filters.One (get x)) item
  = bool_decide (get item ∈ values).
Proof.
  apply eq_true_iff_eq. rewrite in_spec, bool_decide_eq_true. split.
  - intros (v & Hv & Hin). by apply list_elem_of_singleton in Hv as ->.
  - intros Hin. exists (get item). split; [left|done].
Qed.

Lemma match_new {T} (item : T) : Filters.match_ Filters.new item = true.
Proof. reflexivity. Qed.

Lemma match_addCriteria {T} (c : T → bool) this item :
  Filters.match_ (Filters.addCriteria c this) item
  = Filters.match_ this item && c item.
Proof.
  unfold Filters.match_, Filters.addCriteria.
  rewrite forallb_app. simpl. by rewrite andb_true_r.
Qed.

Lemma filter_map_comm {A B} (f : B → bool) (g : A → B) (l : list A) :
  List.filter f (map g l) = map g (List.filter (λ x, f (g x)) l).
Proof.
  induction l as [|a l IH]; simpl; [done|].
  destruct (f (g a)); simpl; by rewrite IH.
Qed.

(** With unique keys, selecting by the key of a member gives that member. *)
Lemma filter_unique_key {A} (key : A → string) (l : list A) (a : A) :
  NoDup (map key l) → a ∈ l →
  List.filter (λ x, bool_decide (key x ∈ [key a])) l = [a].
Proof.
  induction l as [|b l IH]; simpl; intros Hnd Hin.
  - by apply elem_of_nil in Hin.
  - apply NoDup_cons in Hnd as [Hb Hnd].
    assert (Hnone : ∀ k, k ∉ map key l →
              List.filter (λ x, bool_decide (key x ∈ [k])) l = []).
    { clear. intros k. induction l as [|c l IH]; simpl; [done|].
      intros Hk. apply not_elem_of_cons in Hk as [Hc Hk].
      rewrite bool_decide_eq_false_2; [by apply IH|].
      rewrite list_elem_of_singleton. congruence. }
    apply elem_of_cons in Hin as [->|Hin].
    + rewrite bool_decide_eq_true_2 by left. by rewrite Hnone.
    + rewrite bool_decide_eq_false_2; [by apply IH|].
      rewrite list_elem_of_singleton. intros Heq. apply Hb. rewrite Heq.
      apply (list_elem_of_fmap_2 key), Hin.
Qed.

Lemma match_items_id_only q item :
  q ≠ "" →
  Filters.match_
    (items_filters {| ItemsQuery.id := Some q; ItemsQuery.tag := None |}) item
  = bool_decide (Item.id item ∈ JS.split "," q).
Proof.
  intros Hq. apply truthy_nonempty in Hq. unfold items_filters. simpl.
  rewrite Hq, match_addCriteria, match_new. simpl.
  apply (in_One _ Item.id).
Qed.

Lemma match_tags_id q tag :
  q ≠ "" →
  Filters.match_ (tags_filters {| TagsQuery.id := Some q |}) tag
  = bool_decide (Tag.id tag ∈ JS.split "," q).
Proof.
  intros Hq. apply truthy_nonempty in Hq. unfold tags_filters. simpl.
  rewrite Hq, match_addCriteria, match_new. simpl.
  apply (in_One _ Tag.id).
Qed.

Lemma items_response_id_only q items tags :
  q ≠ "" →
  items_response {| ItemsQuery.id := Some q; ItemsQuery.tag := None |}
    items tags
  = map (toItem (tagMap_of tags))
      (List.filter
         (λ row, bool_decide (GristItem.ID2 row ∈ JS.split "," q)) items).
Proof.
  intros Hq. unfold items_response. rewrite filter_map_comm. f_equal.
  apply filter_ext. intros row. by rewrite match_items_id_only.
Qed.

Lemma tags_response_id q items tags :
  q ≠ "" →
  tags_response {| TagsQuery.id := Some q |} items tags
  = map (toTag (itemByTag_of items))
      (List.filter
         (λ row, bool_decide (GristTag.ID2 row ∈ JS.split "," q)) tags).
Proof.
  intros Hq. unfold tags_response. rewrite filter_map_comm. f_equal.
  apply filter_ext. intros row. by rewrite match_tags_id.
Qed.

(** When both fetches succeed, the handler answers with the body's value. *)
Lemma GET_items_fulfilled query first items tags :
  GET_items query first (Promise.Fulfilled items) (Promise.Fulfilled tags)
  = Promise.Fulfilled (items_response query items tags).
Proof. reflexivity. Qed.

Lemma GET_tags_fulfilled query first items tags :
  GET_tags query first (Promise.Fulfilled items) (Promise.Fulfilled tags)
  = Promise.Fulfilled (tags_response query items tags).
Proof. reflexivity. Qed.

(** C1, amended: for every non-empty [id] query string, [GET /items] (and
    [GET /tags]) answers with exactly the mapped rows, in table order, whose
    [ID2] is one of the tokens of the query string split on commas; and when
    the item ids are unique, [GET /items?id=<ID2 of i>] answers with exactly
    the item mapped from [i], provided that id is non-empty and holds no
    comma. *)
Theorem id_filter_selects_members
    (items : list GristItem.t) (tags : list GristTag.t)
    (first : Promise.order) (q : string) (i : GristItem.t) :
  q ≠ "" →
  GET_items {| ItemsQuery.id := Some q; ItemsQuery.tag := None |} first
    (Promise.Fulfilled items) (Promise.Fulfilled tags)
  = Promise.Fulfilled
      (map (toItem (tagMap_of tags))
         (List.filter
            (λ row, bool_decide (GristItem.ID2 row ∈ JS.split "," q)) items))
  ∧ GET_tags {| TagsQuery.id := Some q |} first
      (Promise.Fulfilled items) (Promise.Fulfilled tags)
    = Promise.Fulfilled
        (map (toTag (itemByTag_of items))
           (List.filter
              (λ row, bool_decide (GristTag.ID2 row ∈ JS.split "," q)) tags))
  ∧ (NoDup (map GristItem.ID2 items) → i ∈ items →
     GristItem.ID2 i ≠ "" → JS.occurrences "," (GristItem.ID2 i) = 0%nat →
     GET_items
       {| ItemsQuery.id := Some (GristItem.ID2 i); ItemsQuery.tag := None |}
       first (Promise.Fulfilled items) (Promise.Fulfilled tags)
     = Promise.Fulfilled [toItem (tagMap_of tags) i]).
Proof.
  intros Hq. split; [|split].
  - by rewrite GET_items_fulfilled, items_response_id_only.
  - by rewrite GET_tags_fulfilled, tags_response_id.
  - intros Hnd Hi Hne Hcomma.
    rewrite GET_items_fulfilled, items_response_id_only by done.
    rewrite (split_no_sep _ _ Hcomma).
    by rewrite (filter_unique_key GristItem.ID2 items i Hnd Hi).
Qed.

Lemma id_filter_selects_members_witness :
  GET_items {| ItemsQuery.id := Some "A,C"; ItemsQuery.tag := None |}
    Promise.LeftFirst
    (Promise.Fulfilled [row_A; row_B]) (Promise.Fulfilled [row_T1])
  = Promise.Fulfilled [toItem (tagMap_of [row_T1]) row_A]
  ∧ GET_tags {| TagsQuery.id := Some "A,C" |} Promise.LeftFirst
      (Promise.Fulfilled [row_A; row_B]) (Promise.Fulfilled [row_T1])
    = Promise.Fulfilled []
  ∧ GET_items {| ItemsQuery.id := Some "A"; ItemsQuery.tag := None |}
      Promise.LeftFirst
      (Promise.Fulfilled [row_A; row_B]) (Promise.Fulfilled [row_T1])
    = Promise.Fulfilled [toItem (tagMap_of [row_T1]) row_A].
Proof.
  destruct (id_filter_selects_members [row_A; row_B] [row_T1]
              Promise.LeftFirst "A,C" row_A) as (H1 & H2 & H3); [done|].
  split; [exact H1|]. split; [exact H2|].
  apply H3.
  - simpl. apply NoDup_cons. split; [|apply NoDup_singleton].
    rewrite list_elem_of_singleton. discriminate.
  - left.
  - done.
  - reflexivity.
Defined.

(** C1 as stated fails: the empty query string is present but filters
    nothing, so an item whose id is not among the tokens is returned; and an
    id that holds a comma does not select its own item. *)
Lemma id_filter_counterexample :
  GET_items {| ItemsQuery.id := Some ""; ItemsQuery.tag := None |}
    Promise.LeftFirst (Promise.Fulfilled [row_A]) (Promise.Fulfilled [row_T1])
  = Promise.Fulfilled [toItem (tagMap_of [row_T1]) row_A]
  ∧ ¬ (GristItem.ID2 row_A ∈ JS.split "," "")
  ∧ GET_items
      {| ItemsQuery.id := Some (GristItem.ID2 row_comma);
         ItemsQuery.tag := None |}
      Promise.LeftFirst
      (Promise.Fulfilled [row_comma]) (Promise.Fulfilled [row_T1])
    = Promise.Fulfilled [].
Proof.
  split; [reflexivity|]. split; [|reflexivity].
  simpl. rewrite list_elem_of_singleton. discriminate.
Qed.

Lemma existsb_ext {A} (f g : A → bool) (l : list A) :
  (∀ a, f a = g a) → existsb f l = existsb g l.
Proof. intros Hfg. induction l as [|a l IH]; simpl; [done|]. by rewrite Hfg, IH. Qed.

Lemma Set_has_bool_decide values value :
  JS.Set_has (JS.Set_new values) value = bool_decide (value ∈ values).
Proof.
  apply eq_true_iff_eq. by rewrite Set_has_spec, bool_decide_eq_true.
Qed.

Lemma match_items_tag qid qt item :
  qt ≠ "" →
  Filters.match_
    (items_filters {| ItemsQuery.id := qid; ItemsQuery.tag := Some qt |}) item
  = id_criterion qid item && tag_criterion qt item.
Proof.
  intros Hq. apply truthy_nonempty in Hq. unfold items_filters. simpl.
  rewrite Hq, match_addCriteria. f_equal.
  - unfold id_criterion. destruct qid as [q|]; [|done].
    destruct (JS.truthy q); [|done].
    rewrite match_addCriteria, match_new. simpl. apply (in_One _ Item.id).
  - unfold Filters.in_, tag_criterion. apply existsb_ext.
    intros tg. apply Set_has_bool_decide.
Qed.

Lemma tag_criterion_spec qt item :
  tag_criterion qt item = true ↔
  ∃ tg, tg ∈ default [] (Item.tags item) ∧ tg ∈ JS.split "," qt.
Proof.
  unfold tag_criterion. rewrite existsb_exists.
  split; intros (tg & Htg & Hin); exists tg.
  - apply list_elem_of_In in Htg. by apply bool_decide_eq_true in Hin.
  - split; [by apply list_elem_of_In|by apply bool_decide_eq_true].
Qed.

Lemma id_criterion_spec qid item :
  id_criterion qid item = true ↔
  ∀ q, qid = Some q → q ≠ "" → Item.id item ∈ JS.split "," q.
Proof.
  unfold id_criterion. destruct qid as [q|]; [|by split].
  destruct (JS.truthy q) eqn:Hq.
  - rewrite bool_decide_eq_true. split.
    + by intros Hin q' [= <-] _.
    + intros H. apply (H q); [done|]. by apply truthy_nonempty.
  - apply truthy_empty in Hq as ->. split; [|done].
    by intros _ q' [= <-] Hne.
Qed.

(** C2, amended: for every non-empty [tag] query string, [GET /items]
    answers with the mapped items, in table order, that have at least one
    member of their [tags] list among the tokens of the query string split
    on commas and that, when a non-empty [id] query is also present, have
    their id among the tokens of that one. *)
Theorem tag_filter_any_and_id
    (items : list GristItem.t) (tags : list GristTag.t)
    (first : Promise.order) (qid : option string) (qt : string) :
  qt ≠ "" →
  ∃ response,
    GET_items {| ItemsQuery.id := qid; ItemsQuery.tag := Some qt |} first
      (Promise.Fulfilled items) (Promise.Fulfilled tags)
    = Promise.Fulfilled response
    ∧ response
      = List.filter (λ item, id_criterion qid item && tag_criterion qt item)
          (map (toItem (tagMap_of tags)) items)
    ∧ ∀ item,
        item ∈ response ↔
        item ∈ map (toItem (tagMap_of tags)) items
        ∧ (∃ tg, tg ∈ default [] (Item.tags item) ∧ tg ∈ JS.split "," qt)
        ∧ (∀ q, qid = Some q → q ≠ "" → Item.id item ∈ JS.split "," q).
Proof.
  intros Hq.
  assert (Hresp :
    items_response {| ItemsQuery.id := qid; ItemsQuery.tag := Some qt |}
      items tags
    = List.filter (λ item, id_criterion qid item && tag_criterion qt item)
        (map (toItem (tagMap_of tags)) items)).
  { unfold items_response. apply filter_ext.
    intros item. by apply match_items_tag. }
  eexists. split; [apply GET_items_fulfilled|]. split; [exact Hresp|].
  intros item. rewrite Hresp, list_elem_of_In, filter_In, <- list_elem_of_In.
  rewrite andb_true_iff, id_criterion_spec, tag_criterion_spec. tauto.
Qed.

Lemma tag_filter_any_and_id_witness :
  ∃ response,
    GET_items {| ItemsQuery.id := Some "A,B"; ItemsQuery.tag := Some "T1,T2" |}
      Promise.RightFirst
      (Promise.Fulfilled [row_A; row_B]) (Promise.Fulfilled [row_T1])
    = Promise.Fulfilled response
    ∧ response = [toItem (tagMap_of [row_T1]) row_A].
Proof.
  destruct (tag_filter_any_and_id [row_A; row_B] [row_T1]
              Promise.RightFirst (Some "A,B") "T1,T2") as (r & H1 & H2 & _);
    [done|].
  exists r. split; [exact H1|exact H2].
Defined.

(** C2 as stated fails: the empty [tag] query string is present but filters
    nothing, so an item without any tag is returned; and with a non-empty
    [tag] query the empty [id] query string does not restrict the ids. *)
Lemma tag_filter_counterexample :
  GET_items {| ItemsQuery.id := None; ItemsQuery.tag := Some "" |}
    Promise.LeftFirst (Promise.Fulfilled [row_B]) (Promise.Fulfilled [row_T1])
  = Promise.Fulfilled [toItem (tagMap_of [row_T1]) row_B]
  ∧ Item.tags (toItem (tagMap_of [row_T1]) row_B) = Some []
  ∧ GET_items {| ItemsQuery.id := Some ""; ItemsQuery.tag := Some "T1" |}
      Promise.LeftFirst
      (Promise.Fulfilled [row_A]) (Promise.Fulfilled [row_T1])
    = Promise.Fulfilled [toItem (tagMap_of [row_T1]) row_A]
  ∧ ¬ (Item.id (toItem (tagMap_of [row_T1]) row_A) ∈ JS.split "," "").
Proof.
  split; [reflexivity|]. split; [reflexivity|]. split; [reflexivity|].
  simpl. rewrite list_elem_of_singleton. discriminate.
Qed.

Lemma items_response_no_query items tags :
  items_response {| ItemsQuery.id := None; ItemsQuery.tag := None |}
    items tags
  = map (toItem (tagMap_of tags)) items.
Proof.
  unfold items_response. simpl. apply forallb_filter_id.
  by apply forallb_forall.
Qed.

Lemma tags_response_no_query items tags :
  tags_response {| TagsQuery.id := None |} items tags
  = map (toTag (itemByTag_of items)) tags.
Proof.
  unfold tags_response. simpl. apply forallb_filter_id.
  by apply forallb_forall.
Qed.

(** C7: without query parameters [GET /items] answers with every mapped
    item, as many as there are item rows. *)
Theorem no_query_returns_all
    (items : list GristItem.t) (tags : list GristTag.t)
    (first : Promise.order) :
  items_filters {| ItemsQuery.id := None; ItemsQuery.tag := None |} = []
  ∧ ∃ response,
      GET_items {| ItemsQuery.id := None; ItemsQuery.tag := None |} first
        (Promise.Fulfilled items) (Promise.Fulfilled tags)
      = Promise.Fulfilled response
      ∧ response = map (toItem (tagMap_of tags)) items
      ∧ length response = length items.
Proof.
  split; [reflexivity|]. eexists. split; [apply GET_items_fulfilled|].
  rewrite items_response_no_query. split; [done|]. apply length_map.
Qed.

(** ** The join *)

Lemma tagMap_of_lookup_None tags k :
  (∀ tag, tag ∈ tags → GristTag.id tag ≠ k) → tagMap_of tags !! k = None.
Proof.
  intros Hk. apply Map_new_lookup_None. intros kv Hkv.
  apply list_elem_of_In, in_map_iff in Hkv as (tag & <- & Htag).
  apply Hk. by apply list_elem_of_In.
Qed.

Lemma itemByTag_of_lookup_None items k :
  (∀ item, item ∈ items → GristItem.Tag item ≠ k) →
  itemByTag_of items !! k = None.
Proof.
  intros Hk. apply Map_new_lookup_None. intros kv Hkv.
  apply list_elem_of_In, in_map_iff in Hkv as (item & <- & Hitem).
  apply Hk. by apply list_elem_of_In.
Qed.

Lemma itemByTag_of_lookup_last before item after :
  (∀ later, later ∈ after → GristItem.Tag later ≠ GristItem.Tag item) →
  itemByTag_of (before ++ item :: after) !! GristItem.Tag item
  = Some (GristItem.ID2 item).
Proof.
  intros Hk. unfold itemByTag_of. rewrite map_app. simpl.
  apply Map_new_lookup_last. intros kv Hkv.
  apply list_elem_of_In, in_map_iff in Hkv as (later & <- & Hlater).
  apply Hk. by apply list_elem_of_In.
Qed.

Lemma toTag_link itemByTag tag :
  Tag.link (toTag itemByTag tag) = link_of (itemByTag !! GristTag.id tag).
Proof. reflexivity. Qed.

(** C4: an item row whose [Tag] matches no tag row is mapped to an item with
    the empty [tags] list, and the request is answered, not failed. *)
Theorem unmatched_tag_gives_empty_tags
    (items : list GristItem.t) (tags : list GristTag.t)
    (first : Promise.order) (item : GristItem.t) :
  item ∈ items →
  (∀ tag, tag ∈ tags → GristTag.id tag ≠ GristItem.Tag item) →
  Item.tags (toItem (tagMap_of tags) item) = Some []
  ∧ (∀ query, ∃ response,
       GET_items query first (Promise.Fulfilled items) (Promise.Fulfilled tags)
       = Promise.Fulfilled response)
  ∧ ∃ response,
      GET_items {| ItemsQuery.id := None; ItemsQuery.tag := None |} first
        (Promise.Fulfilled items) (Promise.Fulfilled tags)
      = Promise.Fulfilled response
      ∧ toItem (tagMap_of tags) item ∈ response.
Proof.
  intros Hitem Hnone. split; [|split].
  - unfold toItem. simpl. by rewrite tagMap_of_lookup_None.
  - intros query. eexists. apply GET_items_fulfilled.
  - eexists. split; [apply GET_items_fulfilled|].
    rewrite items_response_no_query.
    by apply (list_elem_of_fmap_2 (toItem (tagMap_of tags))).
Qed.

Lemma unmatched_tag_gives_empty_tags_witness :
  Item.tags (toItem (tagMap_of [row_T1]) row_B) = Some []
  ∧ GET_items {| ItemsQuery.id := None; ItemsQuery.tag := None |}
      Promise.LeftFirst
      (Promise.Fulfilled [row_A; row_B]) (Promise.Fulfilled [row_T1])
    = Promise.Fulfilled
        [toItem (tagMap_of [row_T1]) row_A; toItem (tagMap_of [row_T1]) row_B].
Proof.
  destruct (unmatched_tag_gives_empty_tags [row_A; row_B] [row_T1]
              Promise.LeftFirst row_B) as (H1 & _ & _).
  - right. left.
  - intros tag Htag. apply list_elem_of_singleton in Htag as ->. done.
  - split; [exact H1|reflexivity].
Defined.

(** The link of a tag is decided by the last item row that refers to it. *)
Lemma toTag_link_last before item after tag :
  GristItem.Tag item = GristTag.id tag →
  (∀ later, later ∈ after → GristItem.Tag later ≠ GristTag.id tag) →
  Tag.link (toTag (itemByTag_of (before ++ item :: after)) tag)
  = if JS.truthy (GristItem.ID2 item)
    then Some {| Link.id := GristItem.ID2 item; Link.type := TagType_Item |}
    else None.
Proof.
  intros Hitem Hafter. rewrite toTag_link, <- Hitem.
  rewrite itemByTag_of_lookup_last; [done|]. by rewrite Hitem.
Qed.

(** C3, amended: the [link] of the produced tag is [null] when no item row's
    [Tag] equals the tag's numeric [id], and also when the last item row
    whose [Tag] equals it has the empty string as [ID2]; otherwise it is
    [{id: <ID2 of the last such item row>, type: "ITEM"}].  In the scenario
    of the specification [GET /tags] answers with the tag ["T1"] linked to
    the item ["A"]. *)
Theorem tag_link_of_referencing_item
    (items : list GristItem.t) (tags : list GristTag.t)
    (first : Promise.order) (tag : GristTag.t)
    (before after : list GristItem.t) (item : GristItem.t) :
  (∃ response,
     GET_tags {| TagsQuery.id := None |} first
       (Promise.Fulfilled items) (Promise.Fulfilled tags)
     = Promise.Fulfilled response
     ∧ response = map (toTag (itemByTag_of items)) tags)
  ∧ ((∀ row, row ∈ items → GristItem.Tag row ≠ GristTag.id tag) →
     Tag.link (toTag (itemByTag_of items) tag) = None)
  ∧ (items = before ++ item :: after →
     GristItem.Tag item = GristTag.id tag →
     (∀ later, later ∈ after → GristItem.Tag later ≠ GristTag.id tag) →
     (GristItem.ID2 item ≠ "" →
      Tag.link (toTag (itemByTag_of items) tag)
      = Some {| Link.id := GristItem.ID2 item; Link.type := TagType_Item |})
     ∧ (GristItem.ID2 item = "" →
        Tag.link (toTag (itemByTag_of items) tag) = None))
  ∧ GET_tags {| TagsQuery.id := None |} first
      (Promise.Fulfilled [row_A]) (Promise.Fulfilled [row_T1])
    = Promise.Fulfilled
        [{| Tag.id := "T1";
            Tag.link := Some {| Link.id := "A"; Link.type := TagType_Item |};
            Tag.createdAt := Some "1970-01-01T00:15:00.000Z";
            Tag.updatedAt := Some "1970-01-01T00:15:00.000Z" |}]
  ∧ TagType_value TagType_Item = "ITEM".
Proof.
  split; [|split; [|split; [|split]]].
  - eexists. split; [apply GET_tags_fulfilled|]. apply tags_response_no_query.
  - intros Hnone. by rewrite toTag_link, itemByTag_of_lookup_None.
  - intros -> Hitem Hafter. rewrite toTag_link_last by done. split.
    + intros Hne. apply truthy_nonempty in Hne. by rewrite Hne.
    + intros Heq. apply truthy_empty in Heq. by rewrite Heq.
  - reflexivity.
  - reflexivity.
Qed.

Lemma tag_link_of_referencing_item_witness :
  Tag.link (toTag (itemByTag_of [row_A; row_B]) row_T1)
  = Some {| Link.id := "A"; Link.type := TagType_Item |}
  ∧ Tag.link (toTag (itemByTag_of [row_B]) row_T1) = None.
Proof.
  split.
  - destruct (tag_link_of_referencing_item [row_A; row_B] [row_T1]
                Promise.LeftFirst row_T1 [] [row_B] row_A)
      as (_ & _ & H & _).
    destruct H as [H _].
    + reflexivity.
    + reflexivity.
    + intros later Hlater. apply list_elem_of_singleton in Hlater as ->. done.
    + apply H. done.
  - destruct (tag_link_of_referencing_item [row_B] [row_T1]
                Promise.LeftFirst row_T1 [] [] row_B)
      as (_ & H & _).
    apply H. intros row Hrow.
    apply list_elem_of_singleton in Hrow as ->. done.
Defined.

(** C3 as stated fails: an item row refers to the tag, yet the link is
    [null], because the id of that row is the empty string, which is
    falsy. *)
Lemma tag_link_counterexample :
  GristItem.Tag row_blank = GristTag.id row_T1
  ∧ Tag.link (toTag (itemByTag_of [row_blank]) row_T1) = None
  ∧ Tag.link (toTag (itemByTag_of [row_blank]) row_T1)
    ≠ Some {| Link.id := GristItem.ID2 row_blank; Link.type := TagType_Item |}.
Proof. split; [reflexivity|]. split; [reflexivity|discriminate]. Qed.

(** C10, amended: when two or more item rows share a [Tag] value, the map
    from tag id to item id keeps the [ID2] of the last of them in row order;
    the tag's link is [{id: <that ID2>, type: "ITEM"}] when that [ID2] is
    not empty and [null] when it is empty, whatever the earlier rows are;
    the request is answered, with at most one link per tag. *)
Theorem itemByTag_last_wins
    (tags : list GristTag.t) (first : Promise.order) (query : TagsQuery.t)
    (tag : GristTag.t)
    (before between after : list GristItem.t) (earlier last : GristItem.t) :
  let items := before ++ earlier :: between ++ last :: after in
  GristItem.Tag earlier = GristTag.id tag →
  GristItem.Tag last = GristTag.id tag →
  (∀ later, later ∈ after → GristItem.Tag later ≠ GristTag.id tag) →
  itemByTag_of items !! GristTag.id tag = Some (GristItem.ID2 last)
  ∧ (GristItem.ID2 last ≠ "" →
     Tag.link (toTag (itemByTag_of items) tag)
     = Some {| Link.id := GristItem.ID2 last; Link.type := TagType_Item |})
  ∧ (GristItem.ID2 last = "" →
     Tag.link (toTag (itemByTag_of items) tag) = None)
  ∧ ∃ response,
      GET_tags query first (Promise.Fulfilled items) (Promise.Fulfilled tags)
      = Promise.Fulfilled response.
Proof.
  intros items Hearlier Hlast Hafter.
  assert (Hitems : items = (before ++ earlier :: between) ++ last :: after).
  { unfold items. by rewrite <- app_assoc. }
  split; [|split; [|split]].
  - rewrite Hitems, <- Hlast. apply itemByTag_of_lookup_last.
    by rewrite Hlast.
  - intros Hne. apply truthy_nonempty in Hne.
    by rewrite Hitems, toTag_link_last, Hne.
  - intros Heq. apply truthy_empty in Heq.
    by rewrite Hitems, toTag_link_last, Heq.
  - eexists. apply GET_tags_fulfilled.
Qed.

Lemma itemByTag_last_wins_witness :
  itemByTag_of [row_A; row_B; row_A'; row_B] !! 10 = Some "A2"
  ∧ Tag.link (toTag (itemByTag_of [row_A; row_B; row_A'; row_B]) row_T1)
    = Some {| Link.id := "A2"; Link.type := TagType_Item |}.
Proof.
  destruct (itemByTag_last_wins [row_T1] Promise.LeftFirst
              {| TagsQuery.id := None |} row_T1
              [] [row_B] [row_B] row_A row_A') as (H1 & H2 & _).
  - reflexivity.
  - reflexivity.
  - intros later Hlater. apply list_elem_of_singleton in Hlater as ->. done.
  - split; [exact H1|]. apply H2. done.
Defined.

(** C10 as stated fails: two item rows share the tag and the last of them
    has the empty string as id; the map keeps that id, but the tag's link is
    [null], so there is no [link.id] equal to it. *)
Lemma itemByTag_last_wins_counterexample :
  GristItem.Tag row_A = GristTag.id row_T1
  ∧ GristItem.Tag row_blank = GristTag.id row_T1
  ∧ itemByTag_of [row_A; row_blank] !! GristTag.id row_T1
    = Some (GristItem.ID2 row_blank)
  ∧ Tag.link (toTag (itemByTag_of [row_A; row_blank]) row_T1) = None
  ∧ ¬ ∃ link,
        Tag.link (toTag (itemByTag_of [row_A; row_blank]) row_T1) = Some link
        ∧ Link.id link = GristItem.ID2 row_blank.
Proof.
  repeat (split; [reflexivity|]).
  intros (link & Hlink & _). discriminate Hlink.
Qed.

(** ** Empty tokens *)

Lemma split_leading_sep sep s : "" ∈ JS.split sep (String sep s).
Proof. simpl. rewrite Ascii.eqb_refl. left. Qed.

Lemma split_trailing_sep_last sep s :
  ∃ h front, JS.split sep (s +:+ String sep "") = (h :: front) ++ [""].
Proof.
  induction s as [|c r (h & front & IH)]; simpl.
  - rewrite Ascii.eqb_refl. by exists "", [].
  - rewrite IH. destruct (Ascii.eqb c sep).
    + by exists "", (h :: front).
    + by exists (String c h), front.
Qed.

Lemma split_trailing_sep sep s : "" ∈ JS.split sep (s +:+ String sep "").
Proof.
  destruct (split_trailing_sep_last sep s) as (h & front & ->).
  apply elem_of_app. right. left.
Qed.

(** C5, amended: a comma-separated query value is split at every comma and
    the empty tokens are kept: joining the tokens with commas gives the value
    back, no token holds a comma, and there is one token more than there are
    commas.  The empty query string adds no criterion, so every entity
    passes.  A non-empty query value selects the entities whose id is one of
    its tokens, the empty token included: with a leading or a trailing comma
    (a bare comma is both) it matches an entity whose id is the empty
    string. *)
Theorem split_keeps_empty_tokens (q : string) (tag : Tag.t) (item : Item.t) :
  JS.join "," (JS.split "," q) = q
  ∧ length (JS.split "," q) = S (JS.occurrences "," q)
  ∧ (∀ token, token ∈ JS.split "," q → JS.occurrences "," token = 0%nat)
  ∧ tags_filters {| TagsQuery.id := Some "" |} = []
  ∧ items_filters {| ItemsQuery.id := Some ""; ItemsQuery.tag := Some "" |} = []
  ∧ Filters.match_ (tags_filters {| TagsQuery.id := Some "" |}) tag = true
  ∧ (q ≠ "" →
     Filters.match_ (tags_filters {| TagsQuery.id := Some q |}) tag
     = bool_decide (Tag.id tag ∈ JS.split "," q)
     ∧ Filters.match_
         (items_filters {| ItemsQuery.id := Some q; ItemsQuery.tag := None |})
         item
       = bool_decide (Item.id item ∈ JS.split "," q))
  ∧ (Tag.id tag = "" →
     Filters.match_
       (tags_filters {| TagsQuery.id := Some (String "," q) |}) tag = true
     ∧ Filters.match_
         (tags_filters {| TagsQuery.id := Some (q +:+ ",") |}) tag = true).
Proof.
  split; [apply join_split|]. split; [apply length_split|].
  split; [apply split_token_no_sep|].
  split; [reflexivity|]. split; [reflexivity|]. split; [reflexivity|].
  split.
  - intros Hq. split; [by apply match_tags_id|by apply match_items_id_only].
  - intros Hid. split.
    + rewrite match_tags_id by done. apply bool_decide_eq_true.
      rewrite Hid. apply split_leading_sep.
    + rewrite match_tags_id by (by destruct q). apply bool_decide_eq_true.
      rewrite Hid. apply split_trailing_sep.
Qed.

Lemma split_keeps_empty_tokens_witness :
  JS.split "," "a,,b," = ["a"; ""; "b"; ""]
  ∧ Filters.match_ (tags_filters {| TagsQuery.id := Some "a,,b," |})
      (toTag ∅ row_T_blank) = true
  ∧ Filters.match_ (tags_filters {| TagsQuery.id := Some "a,b" |})
      (toTag ∅ row_T_blank) = false.
Proof.
  destruct (split_keeps_empty_tokens "a,,b" (toTag ∅ row_T_blank)
              (toItem ∅ row_A)) as (_ & _ & _ & _ & _ & _ & _ & H).
  destruct H as [_ H]; [reflexivity|].
  destruct (split_keeps_empty_tokens "a,b" (toTag ∅ row_T_blank)
              (toItem ∅ row_A)) as (_ & _ & _ & _ & _ & _ & H' & _).
  destruct H' as [H' _]; [done|].
  split; [reflexivity|]. split; [exact H|]. rewrite H'. reflexivity.
Defined.

(** C5 as stated fails: a bare comma gives a filter set that holds the empty
    string, and the tag whose id is the empty string is selected; the empty
    query string gives no filter at all, and every tag is returned. *)
Lemma split_keeps_empty_tokens_counterexample :
  JS.split "," "," = [""; ""]
  ∧ JS.Set_has (JS.Set_new (JS.split "," ",")) "" = true
  ∧ Tag.id (toTag (itemByTag_of []) row_T_blank) = ""
  ∧ GET_tags {| TagsQuery.id := Some "," |} Promise.LeftFirst
      (Promise.Fulfilled []) (Promise.Fulfilled [row_T1; row_T_blank])
    = Promise.Fulfilled [toTag (itemByTag_of []) row_T_blank]
  ∧ GET_tags {| TagsQuery.id := Some "" |} Promise.LeftFirst
      (Promise.Fulfilled []) (Promise.Fulfilled [row_T1; row_T_blank])
    = Promise.Fulfilled
        [toTag (itemByTag_of []) row_T1; toTag (itemByTag_of []) row_T_blank].
Proof. repeat (split; [reflexivity|]). reflexivity. Qed.

(** ** Failure of a fetch *)

(** C8: when the fetch of the [Items] table or of the [Tags] table fails,
    [GET /items] and [GET /tags] fail with the error of a failed fetch; no
    response is made from the table that was fetched. *)
Theorem fetch_failure_fails_request
    (qi : ItemsQuery.t) (qt : TagsQuery.t) (first : Promise.order)
    (fetchItems : Promise.t (list GristItem.t))
    (fetchTags : Promise.t (list GristTag.t)) :
  Promise.is_rejected fetchItems ∨ Promise.is_rejected fetchTags →
  ∃ e,
    (fetchItems = Promise.Rejected e ∨ fetchTags = Promise.Rejected e)
    ∧ GET_items qi first fetchItems fetchTags = Promise.Rejected e
    ∧ GET_tags qt first fetchItems fetchTags = Promise.Rejected e.
Proof.
  intros [[e ->]|[e ->]].
  - destruct fetchTags as [tags|e']; [by exists e; auto|].
    destruct first; [exists e|exists e']; auto.
  - destruct fetchItems as [items|e']; [by exists e; auto|].
    destruct first; [exists e'|exists e]; auto.
Qed.

Lemma fetch_failure_fails_request_witness :
  GET_items {| ItemsQuery.id := None; ItemsQuery.tag := None |}
    Promise.LeftFirst (Promise.Fulfilled [row_A]) (Promise.Rejected "503")
  = Promise.Rejected "503"
  ∧ GET_tags {| TagsQuery.id := None |}
      Promise.LeftFirst (Promise.Fulfilled [row_A]) (Promise.Rejected "503")
    = Promise.Rejected "503".
Proof.
  destruct (fetch_failure_fails_request
              {| ItemsQuery.id := None; ItemsQuery.tag := None |}
              {| TagsQuery.id := None |} Promise.LeftFirst
              (Promise.Fulfilled [row_A]) (Promise.Rejected "503"))
    as (e & [He|He] & H1 & H2).
  - right. by exists "503".
  - discriminate He.
  - injection He as <-. split; [exact H1|exact H2].
Defined.

(** ** Timestamps *)

Section calendar.
Import Date.

Lemma DayFromYear_succ y :
  DayFromYear (y + 1) = DayFromYear y + DaysInYear y.
Proof.
  unfold DayFromYear, DaysInYear.
  destruct (Z.eqb_spec (y mod 4) 0), (Z.eqb_spec (y mod 100) 0),
    (Z.eqb_spec (y mod 400) 0); cbn [negb];
    Z.to_euclidean_division_equations; lia.
Qed.

(** [YearFromTime t] is the year the day of [t] falls in. *)
Lemma YearFromTime_spec t :
  DayFromYear (YearFromTime t) <= Day t < DayFromYear (YearFromTime t + 1).
Proof.
  unfold YearFromTime. set (d := Day t). clearbody d.
  destruct (Z.ltb_spec d (DayFromYear (1970 + 400 * d / 146097))) as [H1|H1].
  - revert H1. unfold DayFromYear. Z.to_euclidean_division_equations; lia.
  - destruct (Z.leb_spec (DayFromYear (1970 + 400 * d / 146097 + 1)) d)
      as [H2|H2]; [|lia].
    revert H1 H2. unfold DayFromYear.
    Z.to_euclidean_division_equations; lia.
Qed.

(** It is the year of ECMA-262: the largest [y] with [TimeFromYear y <= t]. *)
Lemma YearFromTime_largest t y :
  TimeFromYear y <= t → y <= YearFromTime t.
Proof.
  intros Hy. pose proof (YearFromTime_spec t) as [_ Hlt].
  assert (Hd : DayFromYear y <= Day t).
  { unfold TimeFromYear, Day, msPerDay in *.
    Z.to_euclidean_division_equations; lia. }
  revert Hd Hlt. generalize (YearFromTime t) (Day t). intros Y d.
  unfold DayFromYear. Z.to_euclidean_division_equations; lia.
Qed.

Lemma YearFromTime_le t : TimeFromYear (YearFromTime t) <= t.
Proof.
  pose proof (YearFromTime_spec t) as [Hle _]. revert Hle.
  unfold TimeFromYear, Day, msPerDay. generalize (DayFromYear (YearFromTime t)).
  intros D. Z.to_euclidean_division_equations; lia.
Qed.

Lemma DayWithinYear_range t :
  0 <= DayWithinYear t < DaysInYear (YearFromTime t).
Proof.
  pose proof (YearFromTime_spec t) as H.
  rewrite DayFromYear_succ in H. unfold DayWithinYear. lia.
Qed.

Lemma InLeapYear_leap t :
  InLeapYear t = if ISO8601.leap_year (YearFromTime t) then 1 else 0.
Proof.
  unfold InLeapYear, DaysInYear, ISO8601.leap_year.
  generalize (YearFromTime t). intros y.
  destruct (Z.eqb_spec (y mod 4) 0), (Z.eqb_spec (y mod 100) 0),
    (Z.eqb_spec (y mod 400) 0); reflexivity.
Qed.

Lemma DaysInYear_leap y :
  DaysInYear y = if ISO8601.leap_year y then 366 else 365.
Proof.
  unfold DaysInYear, ISO8601.leap_year.
  destruct (Z.eqb_spec (y mod 4) 0), (Z.eqb_spec (y mod 100) 0),
    (Z.eqb_spec (y mod 400) 0); reflexivity.
Qed.

(** The first of January and the first of March, counted both ways. *)
Lemma days_from_civil_january Y D :
  ISO8601.days_from_civil Y 1 D = DayFromYear Y + D - 1.
Proof.
  unfold ISO8601.days_from_civil, DayFromYear.
  change (1 <=? 2) with true. change ((153 * ((1 + 9) mod 12) + 2) / 5) with 306.
  cbv beta iota zeta. Z.to_euclidean_division_equations; lia.
Qed.

Lemma days_from_civil_march Y D :
  ISO8601.days_from_civil Y 3 D
  = DayFromYear Y + 59 + (if ISO8601.leap_year Y then 1 else 0) + D - 1.
Proof.
  unfold ISO8601.days_from_civil, DayFromYear, ISO8601.leap_year.
  change (3 <=? 2) with false. change ((153 * ((3 + 9) mod 12) + 2) / 5) with 0.
  cbv beta iota zeta.
  destruct (Z.eqb_spec (Y mod 4) 0), (Z.eqb_spec (Y mod 100) 0),
    (Z.eqb_spec (Y mod 400) 0); cbn [negb andb orb];
    Z.to_euclidean_division_equations; lia.
Qed.

Lemma days_from_civil_early Y M D :
  1 <= M <= 2 →
  ISO8601.days_from_civil Y M D
  = ISO8601.days_from_civil Y 1 1 + 31 * (M - 1) + D - 1.
Proof.
  intros HM. unfold ISO8601.days_from_civil.
  change (1 <=? 2) with true. destruct (Z.leb_spec M 2) as [_|?]; [|lia].
  cbv zeta. change ((153 * ((1 + 9) mod 12) + 2) / 5) with 306.
  assert (HM' : M = 1 ∨ M = 2) by lia. destruct HM' as [-> | ->].
  - change ((153 * ((1 + 9) mod 12) + 2) / 5) with 306. lia.
  - change ((153 * ((2 + 9) mod 12) + 2) / 5) with 337. lia.
Qed.

Lemma days_from_civil_late Y M D :
  3 <= M <= 12 →
  ISO8601.days_from_civil Y M D
  = ISO8601.days_from_civil Y 3 1 + (153 * (M - 3) + 2) / 5 + D - 1.
Proof.
  intros HM. unfold ISO8601.days_from_civil.
  change (3 <=? 2) with false. destruct (Z.leb_spec M 2) as [?|_]; [lia|].
  cbv zeta. change ((153 * ((3 + 9) mod 12) + 2) / 5) with 0.
  replace ((M + 9) mod 12) with (M - 3)
    by (Z.to_euclidean_division_equations; lia).
  lia.
Qed.

(** The year, month and day of the month that [Date] reads off a time
    value name the day of that time value. *)
Lemma civil_of_time t :
  1 <= MonthFromTime t + 1 <= 12
  ∧ 1 <= DateFromTime t
      <= ISO8601.days_in_month (YearFromTime t) (MonthFromTime t + 1)
  ∧ ISO8601.days_from_civil (YearFromTime t) (MonthFromTime t + 1)
      (DateFromTime t) = Day t.
Proof.
  pose proof (DayWithinYear_range t) as Hr. rewrite DaysInYear_leap in Hr.
  pose proof (days_from_civil_january (YearFromTime t) 1) as Hjan.
  pose proof (days_from_civil_march (YearFromTime t) 1) as Hmar.
  unfold DateFromTime, MonthFromTime. rewrite InLeapYear_leap.
  unfold DayWithinYear in *.
  set (Y := YearFromTime t) in *. set (d := Day t) in *.
  set (d0 := DayFromYear Y) in *. clearbody d d0.
  destruct (ISO8601.leap_year Y) eqn:Hleap;
  repeat match goal with
         | |- context [?a <? ?b] => destruct (Z.ltb_spec a b)
         end.
  all: match goal with
       | |- context [ISO8601.days_in_month _ ?m] =>
           let m' := eval cbv in m in change m with m'
       end.
  all: cbv [ISO8601.days_in_month]; rewrite ?Hleap.
  all: split; [lia|]; split; [lia|].
  all: first [ rewrite days_from_civil_early by lia
             | rewrite days_from_civil_late by lia ].
  all: Z.to_euclidean_division_equations; lia.
Qed.

Lemma time_of_day t :
  0 <= HourFromTime t < 24 ∧ 0 <= MinFromTime t < 60
  ∧ 0 <= SecFromTime t < 60 ∧ 0 <= msFromTime t < 1000
  ∧ (((Day t * 24 + HourFromTime t) * 60 + MinFromTime t) * 60
     + SecFromTime t) * 1000 + msFromTime t = t.
Proof.
  unfold HourFromTime, MinFromTime, SecFromTime, msFromTime, Day,
    msPerHour, msPerMinute, msPerSecond, msPerDay.
  Z.to_euclidean_division_equations; lia.
Qed.

(** The instant that the fields [Date] reads off a time value name is the
    time value. *)
Lemma instant_of_fields t :
  ISO8601.in_range (YearFromTime t) (MonthFromTime t + 1) (DateFromTime t)
    (HourFromTime t) (MinFromTime t) (SecFromTime t) = true
  ∧ ISO8601.instant (YearFromTime t) (MonthFromTime t + 1) (DateFromTime t)
      (HourFromTime t) (MinFromTime t) (SecFromTime t) (msFromTime t) = t.
Proof.
  destruct (civil_of_time t) as (HM & HD & Hday).
  destruct (time_of_day t) as (Hh & Hm & Hs & Hms & Ht).
  split.
  - unfold ISO8601.in_range. rewrite !andb_true_iff.
    rewrite !Z.leb_le, !Z.ltb_lt. lia.
  - unfold ISO8601.instant. by rewrite Hday.
Qed.

(** The years that take four digits. *)
Lemma YearFromTime_four_digits t :
  -62167219200000 <= t < 253402300800000 → 0 <= YearFromTime t <= 9999.
Proof.
  intros Ht. pose proof (YearFromTime_spec t) as Hy.
  assert (Hd : -719528 <= Day t < 2932897).
  { unfold Day, msPerDay. Z.to_euclidean_division_equations; lia. }
  revert Hy Hd. generalize (YearFromTime t) (Day t). intros Y d.
  unfold DayFromYear. Z.to_euclidean_division_equations; lia.
Qed.

End calendar.

Section reading.
Import Date ISO8601.

Lemma digit_value_digit d : 0 <= d < 10 → digit_value (digit d) = Some d.
Proof.
  intros Hd.
  assert (H : d = 0 ∨ d = 1 ∨ d = 2 ∨ d = 3 ∨ d = 4 ∨ d = 5 ∨ d = 6
              ∨ d = 7 ∨ d = 8 ∨ d = 9) by lia.
  repeat destruct H as [->|H]; try reflexivity. by subst.
Qed.

Lemma number_digit w acc d rest :
  0 <= d < 10 →
  number (S w) acc (String (digit d) rest) = number w (10 * acc + d) rest.
Proof. intros Hd. simpl. by rewrite digit_value_digit. Qed.

Lemma number_pad2 n rest :
  0 <= n < 100 → number 2 0 (pad2 n rest) = Some (n, rest).
Proof.
  intros Hn. unfold pad2.
  rewrite !number_digit by (Z.to_euclidean_division_equations; lia).
  simpl. do 2 f_equal. Z.to_euclidean_division_equations; lia.
Qed.

Lemma number_pad3 n rest :
  0 <= n < 1000 → number 3 0 (pad3 n rest) = Some (n, rest).
Proof.
  intros Hn. unfold pad3, pad2.
  rewrite !number_digit by (Z.to_euclidean_division_equations; lia).
  simpl. do 2 f_equal. Z.to_euclidean_division_equations; lia.
Qed.

Lemma number_pad4 n rest :
  0 <= n < 10000 → number 4 0 (pad4 n rest) = Some (n, rest).
Proof.
  intros Hn. unfold pad4, pad3, pad2.
  rewrite !number_digit by (Z.to_euclidean_division_equations; lia).
  simpl. do 2 f_equal. Z.to_euclidean_division_equations; lia.
Qed.

Lemma expect_same c rest : expect c (String c rest) = Some rest.
Proof. simpl. by rewrite Ascii.eqb_refl. Qed.

(** One field and the separator after it. *)
Ltac read_field lem :=
  rewrite lem by lia; cbn [mbind option_bind];
  rewrite expect_same; cbn [mbind option_bind].

(** Reading back what [toISOString] writes gives the time value, for the
    years that take four digits. *)
Lemma instant_of_toISOString t :
  0 <= YearFromTime t <= 9999 →
  instant_of (toISOString t) = Some t
  ∧ String.length (toISOString t) = 24%nat.
Proof.
  intros HY.
  destruct (civil_of_time t) as (HM & HD & _).
  destruct (time_of_day t) as (Hh & Hm & Hs & Hms & _).
  destruct (instant_of_fields t) as [Hrange Hinstant].
  assert (HD' : DateFromTime t <= 31).
  { revert HD. generalize (MonthFromTime t + 1). intros M.
    unfold days_in_month.
    repeat match goal with
           | |- context [match ?x with _ => _ end] => destruct x
           end; lia. }
  unfold toISOString, year_string.
  replace (0 <=? YearFromTime t) with true by (symmetry; apply Z.leb_le; lia).
  replace (YearFromTime t <=? 9999) with true
    by (symmetry; apply Z.leb_le; lia).
  cbn [andb]. split; [|reflexivity].
  unfold instant_of.
  read_field number_pad4. do 5 read_field number_pad2. read_field number_pad3.
  by rewrite Hrange, Hinstant.
Qed.

End reading.

(** C6: for every epoch value of the 32-bit range, signed or unsigned, the
    conversion multiplies by 1000 without leaving the integers a double holds
    exactly or the range of [Date], and gives the 24-character string
    [YYYY-MM-DDTHH:mm:ss.sssZ] that names, in UTC, the instant [e * 1000]
    milliseconds after the epoch; epoch 1000 gives
    ["1970-01-01T00:16:40.000Z"]. *)
Theorem toISOTimestamp_names_instant (e : Z) :
  - 2 ^ 31 <= e < 2 ^ 32 →
  (Z.abs (e * 1000) < 2 ^ 53 ∧ Date.valid (e * 1000) = true)
  ∧ (∃ iso,
       toISOTimestamp e = Some iso
       ∧ String.length iso = 24%nat
       ∧ ISO8601.instant_of iso = Some (e * 1000))
  ∧ toISOTimestamp 1000 = Some "1970-01-01T00:16:40.000Z".
Proof.
  intros He.
  assert (Hvalid : Date.valid (e * 1000) = true).
  { unfold Date.valid. apply Z.leb_le. lia. }
  split; [split; [lia|exact Hvalid]|]. split; [|reflexivity].
  exists (Date.toISOString (e * 1000)).
  unfold toISOTimestamp, Date.toJSON. rewrite Hvalid. split; [done|].
  destruct (instant_of_toISOString (e * 1000)) as [Hread Hlen]; [|done].
  apply YearFromTime_four_digits. lia.
Qed.

Lemma toISOTimestamp_names_instant_witness :
  ∃ iso,
    toISOTimestamp 1762086896 = Some iso
    ∧ String.length iso = 24%nat
    ∧ ISO8601.instant_of iso = Some 1762086896000.
Proof.
  destruct (toISOTimestamp_names_instant 1762086896) as (_ & H & _); [lia|].
  exact H.
Defined.

(** * Further properties of the filter engine and of the endpoints *)

(** ** Criteria *)

Lemma match_items_filters query item :
  Filters.match_ (items_filters query) item
  = id_criterion (ItemsQuery.id query) item
    && tag_criterion_opt (ItemsQuery.tag query) item.
Proof.
  destruct query as [qid qtag]. unfold items_filters, tag_criterion_opt. simpl.
  assert (Hid :
    Filters.match_
      match qid with
      | Some id =>
          if JS.truthy id
          then Filters.addCriteria
                 (Filters.in_ (JS.split "," id)
                    (λ item, Filters.One (Item.id item))) Filters.new
          else Filters.new
      | None => Filters.new
      end item
    = id_criterion qid item).
  { unfold id_criterion. destruct qid as [q|]; [|done].
    destruct (JS.truthy q); [|done].
    rewrite match_addCriteria, match_new. simpl. apply (in_One _ Item.id). }
  destruct qtag as [qt|]; [|by rewrite Hid, andb_true_r].
  destruct (JS.truthy qt); [|by rewrite Hid, andb_true_r].
  rewrite match_addCriteria, Hid. f_equal.
  unfold Filters.in_, tag_criterion. apply existsb_ext.
  intros tg. apply Set_has_bool_decide.
Qed.

Lemma match_tags_filters query tag :
  Filters.match_ (tags_filters query) tag
  = tag_id_criterion (TagsQuery.id query) tag.
Proof.
  destruct query as [qid]. unfold tags_filters, tag_id_criterion. simpl.
  destruct qid as [q|]; [|done]. destruct (JS.truthy q); [|done].
  rewrite match_addCriteria, match_new. simpl. apply (in_One _ Tag.id).
Qed.

Lemma items_response_criteria query items tags :
  items_response query items tags
  = List.filter
      (λ item, id_criterion (ItemsQuery.id query) item
               && tag_criterion_opt (ItemsQuery.tag query) item)
      (map (toItem (tagMap_of tags)) items).
Proof.
  unfold items_response. apply filter_ext.
  intros item. apply match_items_filters.
Qed.

Lemma tags_response_criteria query items tags :
  tags_response query items tags
  = List.filter (tag_id_criterion (TagsQuery.id query))
      (map (toTag (itemByTag_of items)) tags).
Proof.
  unfold tags_response. apply filter_ext.
  intros tag. apply match_tags_filters.
Qed.

Lemma forallb_Permutation {A} (f : A → bool) (l k : list A) :
  l ≡ₚ k → forallb f l = forallb f k.
Proof.
  induction 1 as [|x l k _ IH|x y l|l k m _ IH1 _ IH2]; simpl.
  - done.
  - by rewrite IH.
  - by rewrite !andb_assoc, (andb_comm (f y)).
  - by rewrite IH1.
Qed.

(** X1: [match] does not depend on the order in which the criteria were
    added. *)
Theorem match_order_irrelevant {T : Type}
    (this other : Filters.t T) (item : T) :
  this ≡ₚ other → Filters.match_ this item = Filters.match_ other item.
Proof. intros Hperm. by apply forallb_Permutation. Qed.

Lemma match_order_irrelevant_witness :
  Filters.match_
    (Filters.addCriteria (Filters.in_ ["A"] (λ x, Filters.One x))
       (Filters.addCriteria (Filters.in_ ["B"] (λ x, Filters.One x))
          Filters.new)) "A"
  = Filters.match_
      (Filters.addCriteria (Filters.in_ ["B"] (λ x, Filters.One x))
         (Filters.addCriteria (Filters.in_ ["A"] (λ x, Filters.One x))
            Filters.new)) "A".
Proof.
  apply match_order_irrelevant. unfold Filters.addCriteria, Filters.new.
  simpl. apply Permutation_swap.
Defined.

Lemma filter_filter_andb {A} (f g : A → bool) (l : list A) :
  List.filter (λ x, f x && g x) l = List.filter g (List.filter f l).
Proof.
  induction l as [|a l IH]; simpl; [done|].
  destruct (f a); simpl; [|done]. destruct (g a); by rewrite IH.
Qed.

Lemma elem_of_List_filter {A} (f : A → bool) (l : list A) x :
  x ∈ List.filter f l ↔ x ∈ l ∧ f x = true.
Proof. by rewrite !list_elem_of_In, filter_In. Qed.

(** X2: the two criteria of [GET /items] are independent: the response to a
    query with [id] and [tag] is the response to the [id] part filtered by
    the [tag] part, and it holds the items common to the responses to the
    two parts. *)
Theorem items_criteria_intersect
    (items : list GristItem.t) (tags : list GristTag.t)
    (qid qtag : option string) :
  items_response {| ItemsQuery.id := qid; ItemsQuery.tag := qtag |} items tags
  = List.filter (tag_criterion_opt qtag)
      (items_response {| ItemsQuery.id := qid; ItemsQuery.tag := None |}
         items tags)
  ∧ ∀ item,
      item ∈ items_response
               {| ItemsQuery.id := qid; ItemsQuery.tag := qtag |} items tags
      ↔ item ∈ items_response
                 {| ItemsQuery.id := qid; ItemsQuery.tag := None |} items tags
        ∧ item ∈ items_response
                   {| ItemsQuery.id := None; ItemsQuery.tag := qtag |}
                   items tags.
Proof.
  assert (Hboth : ∀ q,
    items_response q items tags
    = List.filter
        (λ item, id_criterion (ItemsQuery.id q) item
                 && tag_criterion_opt (ItemsQuery.tag q) item)
        (map (toItem (tagMap_of tags)) items)).
  { intros q. unfold items_response. apply filter_ext.
    intros item. apply match_items_filters. }
  split.
  - rewrite !Hboth. simpl. rewrite <- filter_filter_andb.
    apply filter_ext. intros item. by rewrite andb_true_r.
  - intros item. rewrite !Hboth, !elem_of_List_filter. simpl.
    rewrite !andb_true_iff. tauto.
Qed.

Lemma items_criteria_intersect_witness :
  toItem (tagMap_of [row_T1]) row_A
  ∈ items_response {| ItemsQuery.id := Some "A,B"; ItemsQuery.tag := Some "T1" |}
      [row_A; row_B] [row_T1].
Proof.
  destruct (items_criteria_intersect [row_A; row_B] [row_T1]
              (Some "A,B") (Some "T1")) as [_ H].
  apply H. split.
  - rewrite items_response_criteria. apply elem_of_List_filter.
    split; [left|reflexivity].
  - rewrite items_response_criteria. apply elem_of_List_filter.
    split; [left|reflexivity].
Defined.

(** ** Comma-separated values *)

Lemma split_app sep a b :
  JS.split sep (a +:+ String sep b) = JS.split sep a ++ JS.split sep b.
Proof.
  induction a as [|c r IH]; simpl.
  - by rewrite Ascii.eqb_refl.
  - destruct (Ascii.eqb c sep); [by rewrite IH|].
    rewrite IH. pose proof (split_nonempty sep r) as Hr.
    by destruct (JS.split sep r).
Qed.

Lemma append_nonempty_l a b : a ≠ "" → a +:+ b ≠ "".
Proof. by destruct a. Qed.

(** X3: a comma joins two queries into their union: for non-empty [a] and
    [b], an entity is in the response to [a,b] exactly when it is in the
    response to [a] or in the response to [b]; so for the [id] of both
    endpoints and for the [tag] of [GET /items]. *)
Theorem comma_is_union
    (items : list GristItem.t) (tags : list GristTag.t) (a b : string) :
  a ≠ "" → b ≠ "" →
  (∀ item,
     item ∈ items_response
              {| ItemsQuery.id := Some (a +:+ String "," b);
                 ItemsQuery.tag := None |} items tags
     ↔ item ∈ items_response
                {| ItemsQuery.id := Some a; ItemsQuery.tag := None |}
                items tags
       ∨ item ∈ items_response
                  {| ItemsQuery.id := Some b; ItemsQuery.tag := None |}
                  items tags)
  ∧ (∀ item,
       item ∈ items_response
                {| ItemsQuery.id := None;
                   ItemsQuery.tag := Some (a +:+ String "," b) |} items tags
       ↔ item ∈ items_response
                  {| ItemsQuery.id := None; ItemsQuery.tag := Some a |}
                  items tags
         ∨ item ∈ items_response
                    {| ItemsQuery.id := None; ItemsQuery.tag := Some b |}
                    items tags)
  ∧ (∀ tag,
       tag ∈ tags_response {| TagsQuery.id := Some (a +:+ String "," b) |}
               items tags
       ↔ tag ∈ tags_response {| TagsQuery.id := Some a |} items tags
         ∨ tag ∈ tags_response {| TagsQuery.id := Some b |} items tags).
Proof.
  intros Ha Hb.
  assert (Hab : JS.truthy (a +:+ String "," b) = true).
  { by apply truthy_nonempty, append_nonempty_l. }
  apply truthy_nonempty in Ha, Hb.
  split; [|split].
  - intros item. rewrite !items_response_criteria, !elem_of_List_filter.
    simpl. rewrite Ha, Hb, Hab, !andb_true_r, !bool_decide_eq_true.
    rewrite split_app, elem_of_app. tauto.
  - intros item. rewrite !items_response_criteria, !elem_of_List_filter.
    simpl. rewrite Ha, Hb, Hab, !tag_criterion_spec.
    setoid_rewrite split_app. setoid_rewrite elem_of_app.
    split.
    + intros (Hin & tg & Htg & [Hl|Hr]); [left|right]; eauto.
    + intros [(Hin & tg & Htg & Hl)|(Hin & tg & Htg & Hr)]; eauto.
  - intros tag. rewrite !tags_response_criteria, !elem_of_List_filter.
    simpl. rewrite Ha, Hb, Hab, !bool_decide_eq_true.
    rewrite split_app, elem_of_app. tauto.
Qed.

Lemma comma_is_union_witness :
  toItem (tagMap_of [row_T1]) row_B
  ∈ items_response
      {| ItemsQuery.id := Some "A,B"; ItemsQuery.tag := None |}
      [row_A; row_B] [row_T1].
Proof.
  destruct (comma_is_union [row_A; row_B] [row_T1] "A" "B") as (H & _ & _);
    [done|done|].
  apply H. right. rewrite items_response_criteria.
  apply elem_of_List_filter. split; [right; left|reflexivity].
Defined.

(** X4: only the set of the tokens counts: two non-empty query values with
    the same tokens, in any order and with any repetition, get the same
    response. *)
Theorem tokens_as_set
    (items : list GristItem.t) (tags : list GristTag.t)
    (first : Promise.order) (q q' : string) (other : option string) :
  q ≠ "" → q' ≠ "" →
  (∀ token, token ∈ JS.split "," q ↔ token ∈ JS.split "," q') →
  GET_items {| ItemsQuery.id := Some q; ItemsQuery.tag := other |} first
    (Promise.Fulfilled items) (Promise.Fulfilled tags)
  = GET_items {| ItemsQuery.id := Some q'; ItemsQuery.tag := other |} first
      (Promise.Fulfilled items) (Promise.Fulfilled tags)
  ∧ GET_items {| ItemsQuery.id := other; ItemsQuery.tag := Some q |} first
      (Promise.Fulfilled items) (Promise.Fulfilled tags)
    = GET_items {| ItemsQuery.id := other; ItemsQuery.tag := Some q' |} first
        (Promise.Fulfilled items) (Promise.Fulfilled tags)
  ∧ GET_tags {| TagsQuery.id := Some q |} first
      (Promise.Fulfilled items) (Promise.Fulfilled tags)
    = GET_tags {| TagsQuery.id := Some q' |} first
        (Promise.Fulfilled items) (Promise.Fulfilled tags).
Proof.
  intros Hq Hq' Hset. apply truthy_nonempty in Hq, Hq'.
  rewrite !GET_items_fulfilled, !GET_tags_fulfilled.
  rewrite !items_response_criteria, !tags_response_criteria. simpl.
  split; [|split]; f_equal; apply filter_ext; intros x.
  - unfold id_criterion. rewrite Hq, Hq'. f_equal.
    apply bool_decide_ext, Hset.
  - unfold tag_criterion_opt. rewrite Hq, Hq'. f_equal.
    apply eq_true_iff_eq. rewrite !tag_criterion_spec.
    by setoid_rewrite Hset.
  - unfold tag_id_criterion. rewrite Hq, Hq'. apply bool_decide_ext, Hset.
Qed.

Lemma tokens_as_set_witness :
  GET_items {| ItemsQuery.id := Some "A,B"; ItemsQuery.tag := None |}
    Promise.LeftFirst
    (Promise.Fulfilled [row_A; row_B]) (Promise.Fulfilled [row_T1])
  = GET_items {| ItemsQuery.id := Some "B,A,B"; ItemsQuery.tag := None |}
      Promise.LeftFirst
      (Promise.Fulfilled [row_A; row_B]) (Promise.Fulfilled [row_T1]).
Proof.
  destruct (tokens_as_set [row_A; row_B] [row_T1] Promise.LeftFirst
              "A,B" "B,A,B" None) as (H & _); [done|done| |exact H].
  intros token. simpl. rewrite !elem_of_cons, !elem_of_nil. tauto.
Defined.

(** ** What a response can hold *)

Lemma List_filter_sublist {A} (f : A → bool) (l : list A) :
  List.filter f l `sublist_of` l.
Proof.
  induction l as [|a l IH]; simpl; [constructor|].
  destruct (f a); by constructor.
Qed.

(** X5: whatever the query, a response is the unfiltered response with
    some entities left out: the order of the table is kept, nothing is
    added or repeated, and there are at most as many entities as rows. *)
Theorem response_is_sublist
    (items : list GristItem.t) (tags : list GristTag.t)
    (qi : ItemsQuery.t) (qt : TagsQuery.t) :
  items_response qi items tags
    `sublist_of` items_response
                   {| ItemsQuery.id := None; ItemsQuery.tag := None |}
                   items tags
  ∧ (length (items_response qi items tags) ≤ length items)%nat
  ∧ tags_response qt items tags
      `sublist_of` tags_response {| TagsQuery.id := None |} items tags
  ∧ (length (tags_response qt items tags) ≤ length tags)%nat.
Proof.
  rewrite items_response_no_query, tags_response_no_query.
  assert (Hi : items_response qi items tags
               `sublist_of` map (toItem (tagMap_of tags)) items)
    by apply List_filter_sublist.
  assert (Ht : tags_response qt items tags
               `sublist_of` map (toTag (itemByTag_of items)) tags)
    by apply List_filter_sublist.
  split; [done|]. split; [|split; [done|]].
  - apply sublist_length in Hi. by rewrite length_map in Hi.
  - apply sublist_length in Ht. by rewrite length_map in Ht.
Qed.

(** ** The join, in both directions *)

(** What [get] gives is the value of an entry with that key. *)
Lemma Map_new_lookup_Some {V} (entries : list (Z * V)) k v :
  JS.Map_new entries !! k = Some v → (k, v) ∈ entries.
Proof.
  induction entries as [|[k' v'] l IH] using rev_ind.
  - intros Hl. unfold JS.Map_new in Hl. simpl in Hl.
    by rewrite lookup_empty in Hl.
  - rewrite Map_new_snoc, lookup_insert. case_decide as Hk; simpl.
    + intros [= <-]. subst. apply elem_of_app. right. left.
    + intros Hl. apply elem_of_app. left. by apply IH.
Qed.

Lemma tagMap_of_lookup_Some tags k tag :
  tagMap_of tags !! k = Some tag → tag ∈ tags ∧ GristTag.id tag = k.
Proof.
  intros Hl. apply Map_new_lookup_Some in Hl.
  apply list_elem_of_In, in_map_iff in Hl as (tag' & [= <- <-] & Hin).
  split; [by apply list_elem_of_In|done].
Qed.

Lemma itemByTag_of_lookup_Some items k itemId :
  itemByTag_of items !! k = Some itemId →
  ∃ item, item ∈ items ∧ GristItem.Tag item = k ∧ GristItem.ID2 item = itemId.
Proof.
  intros Hl. apply Map_new_lookup_Some in Hl.
  apply list_elem_of_In, in_map_iff in Hl as (item & [= <- <-] & Hin).
  exists item. split; [by apply list_elem_of_In|done].
Qed.

Lemma tagMap_of_lookup_last before tag after :
  (∀ later, later ∈ after → GristTag.id later ≠ GristTag.id tag) →
  tagMap_of (before ++ tag :: after) !! GristTag.id tag = Some tag.
Proof.
  intros Hk. unfold tagMap_of. rewrite map_app. simpl.
  apply Map_new_lookup_last. intros kv Hkv.
  apply list_elem_of_In, in_map_iff in Hkv as (later & <- & Hlater).
  apply Hk. by apply list_elem_of_In.
Qed.

Lemma tagMap_of_lookup_NoDup tags tag :
  NoDup (map GristTag.id tags) → tag ∈ tags →
  tagMap_of tags !! GristTag.id tag = Some tag.
Proof.
  intros Hnd Hin. apply list_elem_of_split in Hin as (before & after & ->).
  apply tagMap_of_lookup_last. intros later Hlater Heq.
  rewrite map_app in Hnd. apply NoDup_app in Hnd as (_ & _ & Hnd).
  simpl in Hnd. apply NoDup_cons in Hnd as [Hnotin _]. apply Hnotin.
  rewrite <- Heq. by apply (list_elem_of_fmap_2 GristTag.id).
Qed.

(** X6: the [tags] list of a produced item holds at most one id, and an id
    in it is the [ID2] of a tag row whose numeric [id] is the item row's
    [Tag]; when several tag rows have that numeric [id], it is the [ID2] of
    the last of them, even when that [ID2] is the empty string. *)
Theorem item_tags_of_tag_rows
    (tags : list GristTag.t) (item : GristItem.t) :
  (∃ l,
     Item.tags (toItem (tagMap_of tags) item) = Some l
     ∧ (length l ≤ 1)%nat
     ∧ ∀ x, x ∈ l →
         ∃ tag, tag ∈ tags ∧ GristTag.id tag = GristItem.Tag item
                ∧ GristTag.ID2 tag = x)
  ∧ ∀ before tag after,
      tags = before ++ tag :: after →
      GristTag.id tag = GristItem.Tag item →
      (∀ later, later ∈ after → GristTag.id later ≠ GristItem.Tag item) →
      Item.tags (toItem (tagMap_of tags) item) = Some [GristTag.ID2 tag].
Proof.
  split.
  - unfold toItem. simpl.
    destruct (tagMap_of tags !! GristItem.Tag item) as [tag|] eqn:Hl.
    + exists [GristTag.ID2 tag]. split; [done|]. split; [done|].
      intros x Hx. apply list_elem_of_singleton in Hx as ->.
      apply tagMap_of_lookup_Some in Hl as [Hin Hid]. by exists tag.
    + exists []. split; [done|]. split; [simpl; lia|].
      intros x Hx. by apply elem_of_nil in Hx.
  - intros before tag after -> Hid Hafter. unfold toItem. simpl.
    rewrite <- Hid, tagMap_of_lookup_last; [done|]. by rewrite Hid.
Qed.

Lemma item_tags_of_tag_rows_witness :
  Item.tags (toItem (tagMap_of [row_T1; row_T1_again; row_T_blank]) row_A)
  = Some [""].
Proof.
  destruct (item_tags_of_tag_rows [row_T1; row_T1_again; row_T_blank] row_A)
    as [_ H].
  apply (H [row_T1] row_T1_again [row_T_blank]).
  - reflexivity.
  - reflexivity.
  - intros later Hlater. apply list_elem_of_singleton in Hlater as ->. done.
Defined.

(** X7: a link never points to nothing: when the produced tag has a link,
    its type is [ITEM], its id is not empty, and an item row with that
    [ID2] has the tag's numeric [id] in its [Tag] column. *)
Theorem link_points_to_item_row
    (items : list GristItem.t) (tag : GristTag.t) (l : Link.t) :
  Tag.link (toTag (itemByTag_of items) tag) = Some l →
  Link.type l = TagType_Item
  ∧ Link.id l ≠ ""
  ∧ ∃ item,
      item ∈ items ∧ GristItem.Tag item = GristTag.id tag
      ∧ GristItem.ID2 item = Link.id l.
Proof.
  rewrite toTag_link. unfold link_of.
  destruct (itemByTag_of items !! GristTag.id tag) as [itemId|] eqn:Hl;
    [|done].
  destruct (JS.truthy itemId) eqn:Hid; [|done].
  intros [= <-]. simpl. split; [done|].
  split; [by apply truthy_nonempty|].
  by apply itemByTag_of_lookup_Some.
Qed.

Lemma link_points_to_item_row_witness :
  ∃ item,
    item ∈ [row_B; row_A] ∧ GristItem.Tag item = 10
    ∧ GristItem.ID2 item = "A".
Proof.
  destruct (link_points_to_item_row [row_B; row_A] row_T1
              {| Link.id := "A"; Link.type := TagType_Item |})
    as (_ & _ & H); [reflexivity|exact H].
Defined.

(** X8: the two endpoints agree: when the tag rows have distinct numeric
    ids and the tag [t], whose id is not empty and holds no comma, is
    linked to an item by [GET /tags], then [GET /items?tag=<id of t>]
    returns an item with the id of the link, carrying the tag [t]. *)
Theorem linked_item_found_by_tag
    (items : list GristItem.t) (tags : list GristTag.t)
    (first : Promise.order) (t : GristTag.t) (l : Link.t) :
  NoDup (map GristTag.id tags) → t ∈ tags →
  GristTag.ID2 t ≠ "" → JS.occurrences "," (GristTag.ID2 t) = 0%nat →
  Tag.link (toTag (itemByTag_of items) t) = Some l →
  ∃ response item,
    GET_items {| ItemsQuery.id := None; ItemsQuery.tag := Some (GristTag.ID2 t) |}
      first (Promise.Fulfilled items) (Promise.Fulfilled tags)
    = Promise.Fulfilled response
    ∧ item ∈ response
    ∧ Item.id item = Link.id l
    ∧ Item.tags item = Some [GristTag.ID2 t].
Proof.
  intros Hnd Ht Hne Hcomma Hlink.
  rewrite toTag_link in Hlink. unfold link_of in Hlink.
  destruct (itemByTag_of items !! GristTag.id t) as [itemId|] eqn:Hl;
    [|done].
  destruct (JS.truthy itemId); [|done]. injection Hlink as <-.
  apply itemByTag_of_lookup_Some in Hl as (row & Hrow & Htag & Hid).
  assert (Htags : Item.tags (toItem (tagMap_of tags) row)
                  = Some [GristTag.ID2 t]).
  { unfold toItem. simpl. by rewrite Htag, tagMap_of_lookup_NoDup. }
  eexists. exists (toItem (tagMap_of tags) row).
  split; [apply GET_items_fulfilled|]. split; [|split; [exact Hid|exact Htags]].
  rewrite items_response_criteria. apply elem_of_List_filter. split.
  - by apply (list_elem_of_fmap_2 (toItem (tagMap_of tags))).
  - simpl. apply truthy_nonempty in Hne. rewrite Hne.
    apply tag_criterion_spec. exists (GristTag.ID2 t). rewrite Htags. simpl.
    rewrite (split_no_sep _ _ Hcomma). split; left.
Qed.

Lemma linked_item_found_by_tag_witness :
  ∃ response item,
    GET_items {| ItemsQuery.id := None; ItemsQuery.tag := Some "T1" |}
      Promise.LeftFirst
      (Promise.Fulfilled [row_A; row_B]) (Promise.Fulfilled [row_T1])
    = Promise.Fulfilled response
    ∧ item ∈ response
    ∧ Item.id item = "A"
    ∧ Item.tags item = Some ["T1"].
Proof.
  apply (linked_item_found_by_tag [row_A; row_B] [row_T1] Promise.LeftFirst
           row_T1 {| Link.id := "A"; Link.type := TagType_Item |}).
  - apply NoDup_singleton.
  - left.
  - done.
  - reflexivity.
  - reflexivity.
Defined.

(** X9: with a non-empty [tag] query, [GET /items] returns only items that
    carry exactly one tag: the [ID2] of a tag row, and one of the tokens of
    the query; an item without tag is never returned. *)
Theorem tag_query_returns_tagged_items
    (items : list GristItem.t) (tags : list GristTag.t)
    (qid : option string) (qt : string) (item : Item.t) :
  qt ≠ "" →
  item ∈ items_response {| ItemsQuery.id := qid; ItemsQuery.tag := Some qt |}
           items tags →
  ∃ tag,
    tag ∈ tags
    ∧ Item.tags item = Some [GristTag.ID2 tag]
    ∧ GristTag.ID2 tag ∈ JS.split "," qt.
Proof.
  intros Hq. apply truthy_nonempty in Hq.
  rewrite items_response_criteria, elem_of_List_filter. simpl. rewrite Hq.
  rewrite andb_true_iff, tag_criterion_spec.
  intros (Hin & _ & tg & Htg & Htoken).
  apply list_elem_of_In, in_map_iff in Hin as (row & <- & _).
  unfold toItem in *. simpl in *.
  destruct (tagMap_of tags !! GristItem.Tag row) as [tag|] eqn:Hl; simpl in *.
  - apply list_elem_of_singleton in Htg as ->.
    apply tagMap_of_lookup_Some in Hl as [Htag _]. by exists tag.
  - by apply elem_of_nil in Htg.
Qed.

Lemma tag_query_returns_tagged_items_witness :
  ∃ tag,
    tag ∈ [row_T1]
    ∧ Item.tags (toItem (tagMap_of [row_T1]) row_A)
      = Some [GristTag.ID2 tag]
    ∧ GristTag.ID2 tag ∈ JS.split "," "T0,T1".
Proof.
  apply (tag_query_returns_tagged_items [row_A; row_B] [row_T1] None
           "T0,T1" (toItem (tagMap_of [row_T1]) row_A)); [done|].
  rewrite items_response_criteria. apply elem_of_List_filter.
  split; [left|reflexivity].
Defined.

(** ** The two revisions *)

Lemma map_logged_spec tagMap items :
  Rev1.map_logged tagMap items = (items, map (toItem tagMap) items).
Proof.
  unfold Rev1.map_logged.
  assert (H : ∀ console mapped,
    foldl (λ '(console, mapped) item,
             (console ++ [item], mapped ++ [toItem tagMap item]))
      (console, mapped) items
    = (console ++ items, mapped ++ map (toItem tagMap) items)).
  { induction items as [|item items IH]; intros console mapped; simpl.
    - by rewrite !app_nil_r.
    - by rewrite IH, <- !app_assoc. }
  apply (H [] []).
Qed.

Lemma keep_single_token qid x :
  (∀ q, qid = Some q → JS.occurrences "," q = 0%nat) →
  Rev1.keep {| Rev1.Query.id := qid |} x
  = match qid with
    | Some q => if JS.truthy q then bool_decide (x ∈ JS.split "," q) else true
    | None => true
    end.
Proof.
  intros Hcomma. unfold Rev1.keep. simpl. destruct qid as [q|]; [|done].
  simpl. destruct (JS.truthy q); [|done]. simpl.
  rewrite (split_no_sep _ _ (Hcomma q eq_refl)).
  apply bool_decide_ext. by rewrite list_elem_of_singleton.
Qed.



(** ** How a request settles *)

(** X11: a request is answered exactly when both tables were fetched; on the
    same fetches the two endpoints settle alike, with the same error when
    they fail; and when both fetches fail the error is the one of the fetch
    that failed first. *)
Theorem request_settles_with_fetches
    (qi : ItemsQuery.t) (qt : TagsQuery.t) (first : Promise.order)
    (fetchItems : Promise.t (list GristItem.t))
    (fetchTags : Promise.t (list GristTag.t)) :
  ((∃ response,
      GET_items qi first fetchItems fetchTags = Promise.Fulfilled response)
   ↔ ∃ items tags,
       fetchItems = Promise.Fulfilled items
       ∧ fetchTags = Promise.Fulfilled tags)
  ∧ (∀ e,
       GET_items qi first fetchItems fetchTags = Promise.Rejected e
       ↔ GET_tags qt first fetchItems fetchTags = Promise.Rejected e)
  ∧ (∀ e1 e2,
       fetchItems = Promise.Rejected e1 → fetchTags = Promise.Rejected e2 →
       GET_items qi first fetchItems fetchTags
       = Promise.Rejected
           match first with
           | Promise.LeftFirst => e1
           | Promise.RightFirst => e2
           end).
Proof.
  split; [|split].
  - split.
    + intros [response H].
      destruct fetchItems as [items|e1], fetchTags as [tags|e2].
      * by exists items, tags.
      * discriminate H.
      * discriminate H.
      * destruct first; discriminate H.
    + intros (items & tags & -> & ->). eexists. apply GET_items_fulfilled.
  - intros e.
    destruct fetchItems as [items|e1], fetchTags as [tags|e2];
      try destruct first; split;
      cbv [GET_items GET_tags mbind promise_bind Promise.bind Promise.all];
      intros H; first [discriminate H|by injection H as ->].
  - intros e1 e2 -> ->. by destruct first.
Qed.

Lemma request_settles_with_fetches_witness :
  GET_items {| ItemsQuery.id := None; ItemsQuery.tag := None |}
    Promise.RightFirst (Promise.Rejected "items") (Promise.Rejected "tags")
  = Promise.Rejected "tags".
Proof.
  destruct (request_settles_with_fetches
              {| ItemsQuery.id := None; ItemsQuery.tag := None |}
              {| TagsQuery.id := None |} Promise.RightFirst
              (Promise.Rejected "items") (Promise.Rejected "tags"))
    as (_ & _ & H).
  by apply (H "items" "tags").
Defined.

(** ** More on timestamps *)

Lemma toISOTimestamp_None ts :
  toISOTimestamp ts = None ↔ ts < -8640000000000 ∨ 8640000000000 < ts.
Proof.
  unfold toISOTimestamp, Date.toJSON, Date.valid.
  destruct (Z.leb_spec (Z.abs (ts * 1000)) 8640000000000000) as [H|H].
  - split; [discriminate|lia].
  - split; [lia|done].
Qed.

(** X12: a timestamp further than 8 640 000 000 000 seconds from the epoch
    is outside the range of [Date]: the conversion gives [null], and so
    does the [createdAt] or [updatedAt] of the produced item or tag; any
    other timestamp gives a string. *)
Theorem timestamp_out_of_range
    (tagMap : gmap Z GristTag.t) (itemByTag : gmap Z string)
    (item : GristItem.t) (tag : GristTag.t) (ts : Z) :
  (toISOTimestamp ts = None ↔ ts < -8640000000000 ∨ 8640000000000 < ts)
  ∧ (Item.createdAt (toItem tagMap item) = None
     ↔ GristItem.CreatedAt item < -8640000000000
       ∨ 8640000000000 < GristItem.CreatedAt item)
  ∧ (Item.updatedAt (toItem tagMap item) = None
     ↔ GristItem.UpdatedAt item < -8640000000000
       ∨ 8640000000000 < GristItem.UpdatedAt item)
  ∧ (Tag.createdAt (toTag itemByTag tag) = None
     ↔ GristTag.CreatedAt tag < -8640000000000
       ∨ 8640000000000 < GristTag.CreatedAt tag)
  ∧ (Tag.updatedAt (toTag itemByTag tag) = None
     ↔ GristTag.UpdatedAt tag < -8640000000000
       ∨ 8640000000000 < GristTag.UpdatedAt tag).
Proof. repeat split; apply toISOTimestamp_None. Qed.

Lemma timestamp_out_of_range_witness :
  toISOTimestamp 8640000000001 = None
  ∧ toISOTimestamp 8640000000000 ≠ None.
Proof.
  destruct (timestamp_out_of_range ∅ ∅ row_A row_T1 8640000000001)
    as (H & _).
  destruct (timestamp_out_of_range ∅ ∅ row_A row_T1 8640000000000)
    as (H' & _).
  split; [apply H; lia|]. intros Hnone. apply H' in Hnone. lia.
Defined.

Lemma toISOTimestamp_four_digits e :
  -62167219200 <= e < 253402300800 →
  toISOTimestamp e = Some (Date.toISOString (e * 1000))
  ∧ ISO8601.instant_of (Date.toISOString (e * 1000)) = Some (e * 1000)
  ∧ String.length (Date.toISOString (e * 1000)) = 24%nat.
Proof.
  intros He. unfold toISOTimestamp, Date.toJSON, Date.valid.
  replace (Z.abs (e * 1000) <=? 8640000000000000) with true
    by (symmetry; apply Z.leb_le; lia).
  split; [done|]. apply instant_of_toISOString, YearFromTime_four_digits. lia.
Qed.



Lemma year_string_append y rest rest' :
  Date.year_string y rest +:+ rest' = Date.year_string y (rest +:+ rest').
Proof.
  unfold Date.year_string.
  destruct ((0 <=? y) && (y <=? 9999)); [reflexivity|].
  destruct (y <? 0); reflexivity.
Qed.

Lemma year_string_length y rest :
  String.length (Date.year_string y rest)
  = Nat.add (if (0 <=? y) && (y <=? 9999) then 4%nat else 7%nat)
      (String.length rest).
Proof.
  unfold Date.year_string.
  destruct ((0 <=? y) && (y <=? 9999)); [reflexivity|].
  destruct (y <? 0); reflexivity.
Qed.

Lemma YearFromTime_before_0000 t :
  t < -62167219200000 → Date.YearFromTime t < 0.
Proof.
  intros Ht. pose proof (YearFromTime_spec t) as Hy.
  assert (Hd : Date.Day t < -719528).
  { unfold Date.Day, Date.msPerDay. Z.to_euclidean_division_equations; lia. }
  revert Hy Hd. generalize (Date.YearFromTime t) (Date.Day t). intros Y d.
  unfold Date.DayFromYear. Z.to_euclidean_division_equations; lia.
Qed.

Lemma YearFromTime_after_9999 t :
  253402300800000 <= t → 9999 < Date.YearFromTime t.
Proof.
  intros Ht. pose proof (YearFromTime_spec t) as Hy.
  assert (Hd : 2932897 <= Date.Day t).
  { unfold Date.Day, Date.msPerDay. Z.to_euclidean_division_equations; lia. }
  revert Hy Hd. generalize (Date.YearFromTime t) (Date.Day t). intros Y d.
  unfold Date.DayFromYear. Z.to_euclidean_division_equations; lia.
Qed.

(** X14: a converted timestamp always ends in [.000Z], the rows holding
    whole seconds; it has 24 characters for the years 0000 to 9999 and 27,
    with a sign and six digits for the year, outside of them. *)
Theorem timestamp_whole_seconds (e : Z) (iso : string) :
  toISOTimestamp e = Some iso →
  (∃ front, iso = front +:+ ".000Z")
  ∧ String.length iso
    = if (-62167219200 <=? e) && (e <? 253402300800) then 24%nat else 27%nat.
Proof.
  unfold toISOTimestamp, Date.toJSON. destruct (Date.valid (e * 1000)); [|done].
  intros [= <-]. split.
  - exists (Date.year_string (Date.YearFromTime (e * 1000)) $ String "-" $
            Date.pad2 (Date.MonthFromTime (e * 1000) + 1) $ String "-" $
            Date.pad2 (Date.DateFromTime (e * 1000)) $ String "T" $
            Date.pad2 (Date.HourFromTime (e * 1000)) $ String ":" $
            Date.pad2 (Date.MinFromTime (e * 1000)) $ String ":" $
            Date.pad2 (Date.SecFromTime (e * 1000)) "").
    rewrite year_string_append. unfold Date.toISOString.
    replace (Date.msFromTime (e * 1000)) with 0
      by (unfold Date.msFromTime, Date.msPerSecond;
          by rewrite Z_mod_mult).
    reflexivity.
  - unfold Date.toISOString. rewrite year_string_length.
    destruct (Z.leb_spec (-62167219200) e) as [Hlo|Hlo];
      [destruct (Z.ltb_spec e 253402300800) as [Hhi|Hhi]|]; simpl andb; cbv iota.
    + pose proof (YearFromTime_four_digits (e * 1000)) as HY.
      replace (0 <=? Date.YearFromTime (e * 1000)) with true
        by (symmetry; apply Z.leb_le; lia).
      replace (Date.YearFromTime (e * 1000) <=? 9999) with true
        by (symmetry; apply Z.leb_le; lia).
      reflexivity.
    + pose proof (YearFromTime_after_9999 (e * 1000)) as HY.
      replace (Date.YearFromTime (e * 1000) <=? 9999) with false
        by (symmetry; apply Z.leb_gt; lia).
      rewrite andb_false_r. reflexivity.
    + pose proof (YearFromTime_before_0000 (e * 1000)) as HY.
      replace (0 <=? Date.YearFromTime (e * 1000)) with false
        by (symmetry; apply Z.leb_gt; lia).
      reflexivity.
Qed.

Lemma timestamp_whole_seconds_witness :
  (∃ front, "+010000-01-01T00:00:00.000Z" = front +:+ ".000Z")
  ∧ String.length "+010000-01-01T00:00:00.000Z" = 27%nat.
Proof.
  apply (timestamp_whole_seconds 253402300800). reflexivity.
Defined.

(** ** The order of the timestamps *)

Section ordering.
Import Date.

Lemma digit_compare a b :
  0 <= a < 10 → 0 <= b < 10 → Ascii.compare (digit a) (digit b) = (a ?= b).
Proof.
  intros Ha Hb. unfold Ascii.compare, digit.
  rewrite !N_ascii_embedding by lia.
  rewrite <- N2Z.inj_compare, !N2Z.inj_add, !Z2N.id by lia.
  apply Z.add_compare_mono_l.
Qed.

Lemma separator_compare c r r' :
  String.compare (String c r) (String c r') = String.compare r r'.
Proof. simpl. unfold Ascii.compare. by rewrite N.compare_refl. Qed.

(** Digit by digit, most significant first. *)
Ltac compare_digits a b :=
  destruct (Z.compare_spec a b);
  repeat (match goal with
          | |- match ?x ?= ?y with _ => _ end = _ =>
              destruct (Z.compare_spec x y)
          end;
          try reflexivity;
          try (exfalso; Z.to_euclidean_division_equations; lia)).

Lemma pad2_compare a b r r' :
  0 <= a < 100 → 0 <= b < 100 →
  String.compare (pad2 a r) (pad2 b r')
  = match a ?= b with
    | Eq => String.compare r r'
    | Lt => Lt
    | Gt => Gt
    end.
Proof.
  intros Ha Hb. unfold pad2. simpl.
  rewrite !digit_compare by (Z.to_euclidean_division_equations; lia).
  compare_digits a b.
Qed.

Lemma pad3_compare a b r r' :
  0 <= a < 1000 → 0 <= b < 1000 →
  String.compare (pad3 a r) (pad3 b r')
  = match a ?= b with
    | Eq => String.compare r r'
    | Lt => Lt
    | Gt => Gt
    end.
Proof.
  intros Ha Hb. unfold pad3, pad2. simpl.
  rewrite !digit_compare by (Z.to_euclidean_division_equations; lia).
  compare_digits a b.
Qed.

Lemma pad4_compare a b r r' :
  0 <= a < 10000 → 0 <= b < 10000 →
  String.compare (pad4 a r) (pad4 b r')
  = match a ?= b with
    | Eq => String.compare r r'
    | Lt => Lt
    | Gt => Gt
    end.
Proof.
  intros Ha Hb. unfold pad4, pad3, pad2. simpl.
  rewrite !digit_compare by (Z.to_euclidean_division_equations; lia).
  compare_digits a b.
Qed.

(** The same day gives the same date. *)
Lemma civil_same_day t t' :
  Day t = Day t' →
  YearFromTime t = YearFromTime t'
  ∧ MonthFromTime t = MonthFromTime t'
  ∧ DateFromTime t = DateFromTime t'.
Proof.
  intros Hd.
  assert (HY : YearFromTime t = YearFromTime t').
  { unfold YearFromTime. by rewrite Hd. }
  assert (Hw : DayWithinYear t = DayWithinYear t').
  { unfold DayWithinYear. by rewrite Hd, HY. }
  assert (Hl : InLeapYear t = InLeapYear t').
  { unfold InLeapYear. by rewrite HY. }
  assert (HM : MonthFromTime t = MonthFromTime t').
  { unfold MonthFromTime. by rewrite Hw, Hl. }
  split; [done|]. split; [done|].
  unfold DateFromTime. by rewrite HM, Hw, Hl.
Qed.

(** A later day gives a later date, read as year, month, day. *)
Lemma civil_later_day t t' :
  Day t < Day t' →
  YearFromTime t < YearFromTime t'
  ∨ YearFromTime t = YearFromTime t'
    ∧ (MonthFromTime t < MonthFromTime t'
       ∨ MonthFromTime t = MonthFromTime t'
         ∧ DateFromTime t < DateFromTime t').
Proof.
  intros Hd.
  pose proof (YearFromTime_spec t) as Hy.
  pose proof (YearFromTime_spec t') as Hy'.
  destruct (Z.lt_trichotomy (YearFromTime t) (YearFromTime t'))
    as [Hlt|[Heq|Hgt]].
  - by left.
  - right. split; [done|].
    assert (Hw : DayWithinYear t < DayWithinYear t').
    { unfold DayWithinYear. rewrite Heq. lia. }
    assert (Hl : InLeapYear t = InLeapYear t').
    { unfold InLeapYear. by rewrite Heq. }
    pose proof (DayWithinYear_range t) as Hr. rewrite DaysInYear_leap in Hr.
    pose proof (InLeapYear_leap t) as Hleap.
    unfold DateFromTime, MonthFromTime. rewrite <- Hl.
    generalize dependent (DayWithinYear t). intros w.
    generalize dependent (DayWithinYear t'). intros w'.
    generalize dependent (InLeapYear t). intros leap. intros.
    assert (Hleap' : leap = 0 ∨ leap = 1).
    { destruct (ISO8601.leap_year (YearFromTime t)); lia. }
    repeat match goal with
           | |- context [?a <? ?b] => destruct (Z.ltb_spec a b)
           end; lia.
  - exfalso. revert Hy Hy' Hd Hgt.
    generalize (YearFromTime t) (YearFromTime t') (Day t) (Day t').
    intros Y Y' d d'. unfold DayFromYear.
    Z.to_euclidean_division_equations; lia.
Qed.

(** Within a day, a later time value gives a later time of day, read as
    hours, minutes, seconds, milliseconds. *)
Lemma time_of_day_later t t' :
  Day t = Day t' → t < t' →
  HourFromTime t < HourFromTime t'
  ∨ HourFromTime t = HourFromTime t'
    ∧ (MinFromTime t < MinFromTime t'
       ∨ MinFromTime t = MinFromTime t'
         ∧ (SecFromTime t < SecFromTime t'
            ∨ SecFromTime t = SecFromTime t'
              ∧ msFromTime t < msFromTime t')).
Proof.
  intros Hd Hlt.
  destruct (time_of_day t) as (Hh & Hm & Hs & Hms & Ht).
  destruct (time_of_day t') as (Hh' & Hm' & Hs' & Hms' & Ht').
  rewrite Hd in Ht. lia.
Qed.

Ltac compare_fields :=
  repeat match goal with
         | |- match ?x ?= ?y with _ => _ end = Lt =>
             destruct (Z.compare_spec x y); [|reflexivity|exfalso; lia]
         end.

(** An earlier time value gives the smaller string, for the years that take
    four digits. *)
Lemma toISOString_compare_lt t t' :
  0 <= YearFromTime t <= 9999 → 0 <= YearFromTime t' <= 9999 → t < t' →
  String.compare (toISOString t) (toISOString t') = Lt.
Proof.
  intros HY HY' Hlt.
  destruct (civil_of_time t) as (HM & HD & _).
  destruct (civil_of_time t') as (HM' & HD' & _).
  destruct (time_of_day t) as (Hh & Hm & Hs & Hms & _).
  destruct (time_of_day t') as (Hh' & Hm' & Hs' & Hms' & _).
  assert (HD31 : ∀ Y M D, D <= ISO8601.days_in_month Y M → D <= 31).
  { intros Y M D. unfold ISO8601.days_in_month.
    repeat match goal with
           | |- context [match ?x with _ => _ end] => destruct x
           end; lia. }
  pose proof (HD31 _ _ _ (proj2 HD)) as HDle.
  pose proof (HD31 _ _ _ (proj2 HD')) as HDle'. clear HD31.
  assert (Hdays : Day t <= Day t').
  { unfold Day, msPerDay. Z.to_euclidean_division_equations; lia. }
  assert (Hfields :
    YearFromTime t < YearFromTime t'
    ∨ YearFromTime t = YearFromTime t'
      ∧ (MonthFromTime t < MonthFromTime t'
         ∨ MonthFromTime t = MonthFromTime t'
           ∧ (DateFromTime t < DateFromTime t'
              ∨ DateFromTime t = DateFromTime t'
                ∧ (HourFromTime t < HourFromTime t'
                   ∨ HourFromTime t = HourFromTime t'
                     ∧ (MinFromTime t < MinFromTime t'
                        ∨ MinFromTime t = MinFromTime t'
                          ∧ (SecFromTime t < SecFromTime t'
                             ∨ SecFromTime t = SecFromTime t'
                               ∧ msFromTime t < msFromTime t')))))).
  { destruct (Z.eq_dec (Day t) (Day t')) as [Heq|Hne].
    - destruct (civil_same_day t t' Heq) as (-> & -> & ->).
      pose proof (time_of_day_later t t' Heq Hlt). tauto.
    - assert (Hd : Day t < Day t') by lia.
      pose proof (civil_later_day t t' Hd). tauto. }
  unfold toISOString, year_string.
  replace (0 <=? YearFromTime t) with true by (symmetry; apply Z.leb_le; lia).
  replace (YearFromTime t <=? 9999) with true
    by (symmetry; apply Z.leb_le; lia).
  replace (0 <=? YearFromTime t') with true
    by (symmetry; apply Z.leb_le; lia).
  replace (YearFromTime t' <=? 9999) with true
    by (symmetry; apply Z.leb_le; lia).
  cbn [andb].
  rewrite pad4_compare, separator_compare by lia.
  do 5 rewrite pad2_compare, separator_compare by lia.
  rewrite pad3_compare by lia.
  generalize dependent (YearFromTime t). generalize dependent (YearFromTime t').
  generalize dependent (MonthFromTime t).
  generalize dependent (MonthFromTime t').
  generalize dependent (DateFromTime t). generalize dependent (DateFromTime t').
  generalize dependent (HourFromTime t). generalize dependent (HourFromTime t').
  generalize dependent (MinFromTime t). generalize dependent (MinFromTime t').
  generalize dependent (SecFromTime t). generalize dependent (SecFromTime t').
  generalize dependent (msFromTime t). generalize dependent (msFromTime t').
  intros. compare_fields. exfalso. lia.
Qed.

Lemma String_compare_refl s : String.compare s s = Eq.
Proof.
  pose proof (String.compare_antisym s s) as H.
  destruct (String.compare s s); [done|discriminate H|discriminate H].
Qed.

End ordering.



(** ** Asking for a list of ids *)

Lemma split_join sep tokens :
  tokens ≠ [] →
  (∀ token, token ∈ tokens → JS.occurrences sep token = 0%nat) →
  JS.split sep (JS.join sep tokens) = tokens.
Proof.
  induction tokens as [|h [|h' t] IH]; intros Hne Hsep.
  - done.
  - simpl. apply split_no_sep, Hsep. left.
  - change (JS.join sep (h :: h' :: t))
      with (h +:+ String sep (JS.join sep (h' :: t))).
    rewrite split_app, IH.
    + rewrite split_no_sep; [done|]. apply Hsep. left.
    + done.
    + intros token Htoken. apply Hsep. by right.
Qed.

(** X16: to get the entities of a list of ids, join the ids with commas:
    for a non-empty list of ids without comma, other than the empty id
    alone, the response holds exactly the mapped rows whose [ID2] is in the
    list, in table order. *)
Theorem query_by_id_list
    (items : list GristItem.t) (tags : list GristTag.t)
    (first : Promise.order) (ids : list string) :
  ids ≠ [] → ids ≠ [""] →
  (∀ id, id ∈ ids → JS.occurrences "," id = 0%nat) →
  GET_items {| ItemsQuery.id := Some (JS.join "," ids); ItemsQuery.tag := None |}
    first (Promise.Fulfilled items) (Promise.Fulfilled tags)
  = Promise.Fulfilled
      (map (toItem (tagMap_of tags))
         (List.filter (λ row, bool_decide (GristItem.ID2 row ∈ ids)) items))
  ∧ GET_tags {| TagsQuery.id := Some (JS.join "," ids) |}
      first (Promise.Fulfilled items) (Promise.Fulfilled tags)
    = Promise.Fulfilled
        (map (toTag (itemByTag_of items))
           (List.filter (λ row, bool_decide (GristTag.ID2 row ∈ ids)) tags)).
Proof.
  intros Hne Hblank Hcomma.
  assert (Hq : JS.join "," ids ≠ "").
  { destruct ids as [|h [|h' t]]; [done| |].
    - simpl. intros ->. done.
    - change (JS.join "," (h :: h' :: t))
        with (h +:+ String "," (JS.join "," (h' :: t))).
      by destruct h. }
  rewrite GET_items_fulfilled, GET_tags_fulfilled.
  rewrite items_response_id_only, tags_response_id by done.
  by rewrite split_join.
Qed.

Lemma query_by_id_list_witness :
  GET_items {| ItemsQuery.id := Some "B,A"; ItemsQuery.tag := None |}
    Promise.LeftFirst
    (Promise.Fulfilled [row_A; row_B; row_comma]) (Promise.Fulfilled [row_T1])
  = Promise.Fulfilled
      [toItem (tagMap_of [row_T1]) row_A; toItem (tagMap_of [row_T1]) row_B].
Proof.
  destruct (query_by_id_list [row_A; row_B; row_comma] [row_T1]
              Promise.LeftFirst ["B"; "A"]) as [H _].
  - done.
  - done.
  - intros id Hid. apply elem_of_cons in Hid as [->|Hid]; [done|].
    apply list_elem_of_singleton in Hid as ->. done.
  - exact H.
Defined.
